(** * ocr_images.py: word extraction, orientation parsing, image enumeration

    A shallow embedding of [01 Datenextraktion/ocr_images.py] and the
    properties its specification states about it.

    Conventions of the embedding.
    - Python [int] is [Z]; Python [float] is IEEE binary64, taken from
      [SpecFloat] at precision 53 and maximal exponent 1024.
    - Python [str] is [string]; a character is a code point below 256, and
      the character classes ([str.isspace], line boundaries, [str.lower])
      are Python's, restricted to that range.
    - A raised exception is the [Raise] branch of [result]; code that
      mutates process state runs in the state-and-exception monad [M].
    - The OCR engine and Pillow are collaborators: an image is described by
      what the engine reports for it.
    - Paths are POSIX paths; the file system is a tree of directories and
      files, rooted at a node that holds the entries of the working
      directory.
    - [main] is modelled from the parsed arguments on. *)

From Stdlib Require Import ZArith Lia Ascii.
From Stdlib Require Import Floats.SpecFloat.
From Stdlib Require DecimalString DecimalZ.
From stdpp Require Import base option list sorting gmap strings.

Set Default Proof Using "Type".
Local Open Scope Z_scope.

(** ** Exceptions and results *)

Inductive exn :=
  | SystemExit (msg : string)
  | ValueError
  | KeyError
  | IndexError
  | AttributeError
  | TypeError
  | OverflowError
  | ZeroDivisionError
  | FileNotFoundError
  | NotADirectoryError
  | IsADirectoryError
  | UnidentifiedImageError
  | TesseractNotFoundError
  | TesseractError (status : Z) (msg : string).

Inductive result (A : Type) :=
  | Ok (a : A)
  | Raise (e : exn).
Arguments Ok {A} a.
Arguments Raise {A} e.

Global Instance result_ret : MRet result := λ A a, Ok a.
Global Instance result_bind : MBind result := λ A B k r,
  match r with
  | Ok a => k a
  | Raise e => Raise e
  end.
Global Instance result_fmap : FMap result := λ A B f r,
  match r with
  | Ok a => Ok (f a)
  | Raise e => Raise e
  end.

(** ** Strings *)

Module PyStr.

Definition code (c : ascii) : N := N_of_ascii c.

(** [str.isspace] on one character: bidirectional type WS, B or S, or
    category Zs. *)
Definition is_space (c : ascii) : bool :=
  let n := code c in
  ((9 <=? n) && (n <=? 13) || (28 <=? n) && (n <=? 32)
   || (n =? 133) || (n =? 160))%N.

(** The line boundaries of [str.splitlines]. *)
Definition is_linebreak (c : ascii) : bool :=
  let n := code c in
  ((10 <=? n) && (n <=? 13) || (28 <=? n) && (n <=? 30) || (n =? 133))%N.

Definition is_empty (s : string) : bool :=
  match s with EmptyString => true | String _ _ => false end.

Fixpoint lstrip (s : string) : string :=
  match s with
  | EmptyString => EmptyString
  | String c s' => if is_space c then lstrip s' else s
  end.

Fixpoint rstrip (s : string) : string :=
  match s with
  | EmptyString => EmptyString
  | String c s' =>
      let r := rstrip s' in
      if is_space c && is_empty r then EmptyString else String c r
  end.

(** [s.strip()] *)
Definition strip (s : string) : string := rstrip (lstrip s).

Fixpoint all_space (s : string) : bool :=
  match s with
  | EmptyString => true
  | String c s' => is_space c && all_space s'
  end.

Fixpoint startswith (p s : string) : bool :=
  match p, s with
  | EmptyString, _ => true
  | String _ _, EmptyString => false
  | String a p', String b s' => bool_decide (a = b) && startswith p' s'
  end.

(** [p in s] for strings. *)
Fixpoint contains (p s : string) : bool :=
  startswith p s ||
  match s with
  | EmptyString => false
  | String _ s' => contains p s'
  end.

(** [s.split(sep)] for a separator of one character. *)
Fixpoint split (sep : ascii) (s : string) : list string :=
  match s with
  | EmptyString => [EmptyString]
  | String c s' =>
      if bool_decide (c = sep) then EmptyString :: split sep s'
      else match split sep s' with
           | [] => [String c EmptyString]
           | p :: ps => String c p :: ps
           end
  end.

(** [s.splitlines()]: a carriage return directly followed by a line feed
    is one boundary, and no empty line is reported after a final
    boundary. *)
Fixpoint splitlines (s : string) : list string :=
  match s with
  | EmptyString => []
  | String c s' =>
      if is_linebreak c then
        EmptyString ::
          match s' with
          | String d s'' =>
              if bool_decide (c = "013"%char) && bool_decide (d = "010"%char)
              then splitlines s'' else splitlines s'
          | EmptyString => []
          end
      else match splitlines s' with
           | [] => [String c EmptyString]
           | l :: ls => String c l :: ls
           end
  end.

(** [str.lower] on one character. *)
Definition lower_char (c : ascii) : ascii :=
  let n := code c in
  if ((65 <=? n) && (n <=? 90)
      || (192 <=? n) && (n <=? 222) && negb (n =? 215))%N
  then ascii_of_N (n + 32) else c.

Fixpoint lower (s : string) : string :=
  match s with
  | EmptyString => EmptyString
  | String c s' => String (lower_char c) (lower s')
  end.

(** [s.rfind(".")], with [None] for Python's [-1]. *)
Fixpoint rfind (ch : ascii) (s : string) : option nat :=
  match s with
  | EmptyString => None
  | String c s' =>
      match rfind ch s' with
      | Some i => Some (S i)
      | None => if bool_decide (c = ch) then Some 0%nat else None
      end
  end.

(** [s[i:]] *)
Fixpoint slice_from (i : nat) (s : string) : string :=
  match i, s with
  | O, _ => s
  | S i', String _ s' => slice_from i' s'
  | S _, EmptyString => EmptyString
  end.

(** [sep.join(parts)] *)
Fixpoint join (sep : string) (parts : list string) : string :=
  match parts with
  | [] => EmptyString
  | [p] => p
  | p :: ps => p +:+ sep +:+ join sep ps
  end.

End PyStr.

(** ** Numbers *)

Module PyNum.

Abbreviation float := spec_float.

Definition prec : Z := 53.
Definition emax : Z := 1024.

(** The binary64 number nearest to [m * 2^e], ties to even. *)
Definition normalize (m e : Z) : float := binary_normalize prec emax m e false.

Definition finite_or_overflow (f : float) : result float :=
  match f with
  | S754_infinity _ => Raise OverflowError
  | _ => Ok f
  end.

(** [float(z)] for an int [z]. *)
Definition float_of_int (z : Z) : result float :=
  finite_or_overflow (normalize z 0).

(** The correctly rounded quotient of two positive integers. *)
Definition round_quotient (neg : bool) (a b : Z) : float :=
  let '(q, e, l) := SFdiv_core_binary prec emax a 0 b 0 in
  binary_round_aux prec emax neg q e l.

(** [a / b] for ints [a] and [b]. *)
Definition int_truediv (a b : Z) : result float :=
  if b =? 0 then Raise ZeroDivisionError
  else
    let neg := xorb (a <? 0) (b <? 0) in
    if a =? 0 then Ok (S754_zero neg)
    else finite_or_overflow (round_quotient neg (Z.abs a) (Z.abs b)).

(** [x + y] for floats. *)
Definition float_add (x y : float) : float := SFadd prec emax x y.

(** [a + y] for an int [a] and a float [y]: [a] is converted first. *)
Definition int_add_float (a : Z) (y : float) : result float :=
  x ← float_of_int a; Ok (float_add x y).

(** [int(f)] for a float [f]: truncation towards zero. *)
Definition int_of_float (f : float) : result Z :=
  match f with
  | S754_zero _ => Ok 0
  | S754_infinity _ => Raise OverflowError
  | S754_nan => Raise ValueError
  | S754_finite s m e => Ok (cond_Zopp s (Z.shiftl (Zpos m) e))
  end.

Definition digit_val (c : ascii) : option Z :=
  let n := PyStr.code c in
  if ((48 <=? n) && (n <=? 57))%N then Some (Z.of_N n - 48) else None.

Definition is_digit (c : ascii) : bool :=
  match digit_val c with Some _ => true | None => false end.

(** A run of decimal digits up to the end of the string, single
    underscores allowed between two digits; [after_digit] tells whether
    the previous character was a digit. *)
Fixpoint digits (acc : Z) (after_digit : bool) (s : string) : option Z :=
  match s with
  | EmptyString => if after_digit then Some acc else None
  | String c s' =>
      match digit_val c with
      | Some d => digits (10 * acc + d) true s'
      | None =>
          if bool_decide (c = "_"%char) && after_digit
          then digits acc false s'
          else None
      end
  end.

Definition signed (s : string) : bool * string :=
  match s with
  | String "-" r => (true, r)
  | String "+" r => (false, r)
  | _ => (false, s)
  end.

(** [int(s)] for a string [s], base ten. *)
Definition int_of_str (s : string) : result Z :=
  let '(neg, body) := signed (PyStr.strip s) in
  match digits 0 false body with
  | Some n => Ok (cond_Zopp neg n)
  | None => Raise ValueError
  end.

(** Underscores of a float literal: each one stands between two digits;
    the result is the literal without them. *)
Fixpoint drop_underscores (prev : ascii) (s : string) : option string :=
  match s with
  | EmptyString => if bool_decide (prev = "_"%char) then None else Some EmptyString
  | String c s' =>
      if bool_decide (c = "_"%char)
      then (if is_digit prev then drop_underscores c s' else None)
      else if bool_decide (prev = "_"%char) && negb (is_digit c) then None
      else String c <$> drop_underscores c s'
  end.

(** The digits at the front of [s]: their value continued from [acc],
    how many there are, and the rest of [s]. *)
Fixpoint leading_digits (acc : Z) (n : Z) (s : string) : Z * Z * string :=
  match s with
  | EmptyString => (acc, n, s)
  | String c s' =>
      match digit_val c with
      | Some d => leading_digits (10 * acc + d) (n + 1) s'
      | None => (acc, n, s)
      end
  end.

(** The optional exponent part of a float literal at the end of [s]. *)
Definition exponent (s : string) : option Z :=
  match s with
  | EmptyString => Some 0
  | String c r =>
      if bool_decide (c = "e"%char) || bool_decide (c = "E"%char) then
        let '(neg, ds) := signed r in
        match leading_digits 0 0 ds with
        | (x, n, EmptyString) => if 0 <? n then Some (cond_Zopp neg x) else None
        | _ => None
        end
      else None
  end.

(** The binary64 number nearest to [m * 10^k], for [m] positive. *)
Definition decimal (neg : bool) (m k : Z) : float :=
  if m =? 0 then S754_zero neg
  else if 0 <=? k then binary_normalize prec emax (cond_Zopp neg (m * 10 ^ k)) 0 neg
  else round_quotient neg m (10 ^ (- k)).

(** [float(s)] for a string [s]. *)
Definition float_of_str (s : string) : result float :=
  match drop_underscores "000" (PyStr.strip s) with
  | None => Raise ValueError
  | Some t =>
      let '(neg, body) := signed t in
      let name := PyStr.lower body in
      if bool_decide (name = "inf") || bool_decide (name = "infinity")
      then Ok (S754_infinity neg)
      else if bool_decide (name = "nan") then Ok S754_nan
      else
        let '(ip, ni, r) := leading_digits 0 0 body in
        let '(m, nf, r') :=
          match r with
          | String "." f => leading_digits ip 0 f
          | _ => (ip, 0, r)
          end in
        if (ni + nf =? 0) then Raise ValueError
        else match exponent r' with
             | Some x => Ok (decimal neg m (x - nf))
             | None => Raise ValueError
             end
  end.

End PyNum.
Import PyNum.

(** ** Python values *)

#[warnings="-register-all"]
Inductive pyval :=
  | VInt (z : Z)
  | VFloat (f : float)
  | VStr (s : string)
  | VList (items : list pyval)
  | VDict (items : list (string * pyval)).

(** [int(v)] *)
Definition py_int (v : pyval) : result Z :=
  match v with
  | VInt z => Ok z
  | VFloat f => int_of_float f
  | VStr s => int_of_str s
  | VList _ | VDict _ => Raise TypeError
  end.

(** [float(v)] *)
Definition py_float (v : pyval) : result float :=
  match v with
  | VInt z => float_of_int z
  | VFloat f => Ok f
  | VStr s => float_of_str s
  | VList _ | VDict _ => Raise TypeError
  end.

(** [v.strip()] *)
Definition py_strip (v : pyval) : result string :=
  match v with
  | VStr s => Ok (PyStr.strip s)
  | _ => Raise AttributeError
  end.

(** [d[k]] on a dict with insertion order. *)
Fixpoint dict_get (k : string) (items : list (string * pyval)) : option pyval :=
  match items with
  | [] => None
  | (k', v) :: rest => if bool_decide (k' = k) then Some v else dict_get k rest
  end.

Definition field (k : string) (v : pyval) : option pyval :=
  match v with
  | VDict items => dict_get k items
  | _ => None
  end.

(** ** The OCR engine *)

(** The table [pytesseract.image_to_data] returns with [Output.DICT]: column
    name to column. *)
Abbreviation table := (gmap string (list pyval)).

(** An opened image, described by what the engine reports for it. *)
Record Image := {
  image_to_osd : result string;
  image_to_data : result table;
}.

(** [d[k]] on the table. *)
Definition getitem (d : table) (k : string) : result (list pyval) :=
  match d !! k with
  | Some col => Ok col
  | None => Raise KeyError
  end.

(** [col[i]] *)
Definition index (col : list pyval) (i : nat) : result pyval :=
  match col !! i with
  | Some v => Ok v
  | None => Raise IndexError
  end.

(** A [for] loop whose body may raise. *)
Fixpoint for_each {A S} (body : S → A → result S) (xs : list A) (s : S) : result S :=
  match xs with
  | [] => Ok s
  | x :: xs' => s' ← body s x; for_each body xs' s'
  end.

(** ** detect_orientation *)

Fixpoint detect_orientation_lines (lines : list string) : result Z :=
  match lines with
  | [] => Ok 0
  | line :: rest =>
      if PyStr.contains "Rotate" line then
        match PyStr.split ":" line with
        | [_; value] => int_of_str (PyStr.strip value)
        | _ => Raise ValueError
        end
      else detect_orientation_lines rest
  end.

Definition detect_orientation (image : Image) : result Z :=
  osd ← image_to_osd image;
  detect_orientation_lines (PyStr.splitlines osd).

(** ** extract_words *)

Definition cell (data : table) (column : string) (i : nat) : result pyval :=
  col ← getitem data column; index col i.

(** The body of the loop of [extract_words] at index [i]. *)
Definition extract_words_body (data : table) (rotation : Z)
    (words : list pyval) (i : nat) : result (list pyval) :=
  text ← cell data "text" i ≫= py_strip;
  if PyStr.is_empty text then Ok words
  else
    left ← cell data "left" i ≫= py_int;
    top ← cell data "top" i ≫= py_int;
    width ← cell data "width" i ≫= py_int;
    height ← cell data "height" i ≫= py_int;
    center_x ← int_truediv width 2 ≫= int_add_float left;
    center_y ← int_truediv height 2 ≫= int_add_float top;
    confidence ← cell data "conf" i ≫= py_float;
    Ok (words ++
        [VDict [("text", VStr text);
                ("rotation", VInt rotation);
                ("position",
                  VDict [("left", VInt left);
                         ("top", VInt top);
                         ("right", VInt (left + width));
                         ("bottom", VInt (top + height));
                         ("center_x", VFloat center_x);
                         ("center_y", VFloat center_y)]);
                ("font_size", VInt height);
                ("confidence", VFloat confidence)]]).

Definition extract_words (image : Image) (rotation : Z) : result (list pyval) :=
  data ← image_to_data image;
  texts ← getitem data "text";
  for_each (extract_words_body data rotation) (seq 0 (length texts)) [].

(** ** Paths *)

(** A [pathlib] path is the list of its parts; an absolute path starts
    with the part ["/"]. *)
Abbreviation path := (list string).

(** [Path(s)] *)
Definition Path (s : string) : path :=
  let parts :=
    filter (λ p, p ≠ "" ∧ p ≠ ".") (PyStr.split "/" s) in
  if PyStr.startswith "/" s then "/" :: parts else parts.

(** [str(p)] *)
Definition path_str (p : path) : string :=
  match p with
  | [] => "."
  | anchor :: rest =>
      if bool_decide (anchor = "/") then "/" +:+ PyStr.join "/" rest
      else PyStr.join "/" p
  end.

(** [p.name] *)
Definition path_name (p : path) : string :=
  match last p with
  | Some n => if bool_decide (n = "/") then "" else n
  | None => ""
  end.

(** [p.suffix] *)
Definition path_suffix (p : path) : string :=
  let name := path_name p in
  match PyStr.rfind "." name with
  | Some i =>
      if bool_decide (0 < i < String.length name - 1)%nat
      then PyStr.slice_from i name else ""
  | None => ""
  end.

(** [p <= q]: the parts are compared as sequences, each part by code
    points. *)
Fixpoint path_le (p q : path) : Prop :=
  match p, q with
  | [], _ => True
  | _ :: _, [] => False
  | x :: p', y :: q' => if decide (x = y) then path_le p' q' else String.le x y
  end.

Global Instance path_le_dec : RelDecision path_le.
Proof.
  intros p. induction p as [|x p IH]; intros [|y q]; simpl; try apply _.
  destruct (decide (x = y)); apply _.
Defined.

(** [sorted(ps)] for a list of paths. *)
Definition sorted (ps : list path) : list path := merge_sort path_le ps.

(** ** The file system *)

Inductive content :=
  | ImageFile (image : Image)
  | TextFile (doc : pyval)
  | OtherFile.

#[warnings="-register-all"]
Inductive node :=
  | File (c : content)
  | Dir (entries : list (string * node)).

Fixpoint lookup_entry (name : string) (entries : list (string * node)) : option node :=
  match entries with
  | [] => None
  | (n, x) :: rest => if bool_decide (n = name) then Some x else lookup_entry name rest
  end.

Fixpoint store_entry (name : string) (x : node) (entries : list (string * node))
    : list (string * node) :=
  match entries with
  | [] => [(name, x)]
  | (n, y) :: rest =>
      if bool_decide (n = name) then (n, x) :: rest
      else (n, y) :: store_entry name x rest
  end.

Fixpoint resolve (root : node) (p : path) : option node :=
  match p with
  | [] => Some root
  | name :: p' =>
      match root with
      | Dir entries => lookup_entry name entries ≫= λ x, resolve x p'
      | File _ => None
      end
  end.

(** The tree after [p.write_text(...)] with text standing for [doc]. *)
Fixpoint store (root : node) (p : path) (doc : pyval) : result node :=
  match p with
  | [] =>
      match root with
      | File _ => Ok (File (TextFile doc))
      | Dir _ => Raise IsADirectoryError
      end
  | name :: p' =>
      match root with
      | Dir entries =>
          match lookup_entry name entries with
          | Some x => x' ← store x p' doc; Ok (Dir (store_entry name x' entries))
          | None =>
              match p' with
              | [] => Ok (Dir (store_entry name (File (TextFile doc)) entries))
              | _ :: _ => Raise FileNotFoundError
              end
          end
      | File _ => Raise NotADirectoryError
      end
  end.

(** ** The process state *)

Record world := {
  environ : gmap string string;
  tesseract_cmd : string;
  which : string → bool;
  tesseract_version : string → result unit;
  root : node;
  stdout : list string;
}.

Definition set_tesseract_cmd (cmd : string) (w : world) : world :=
  {| environ := environ w; tesseract_cmd := cmd; which := which w;
     tesseract_version := tesseract_version w; root := root w;
     stdout := stdout w |}.

Definition set_root (r : node) (w : world) : world :=
  {| environ := environ w; tesseract_cmd := tesseract_cmd w; which := which w;
     tesseract_version := tesseract_version w; root := r;
     stdout := stdout w |}.

Definition add_stdout (line : string) (w : world) : world :=
  {| environ := environ w; tesseract_cmd := tesseract_cmd w; which := which w;
     tesseract_version := tesseract_version w; root := root w;
     stdout := stdout w ++ [line] |}.

(** Computations that read and change the process state and may raise. *)
Definition M (A : Type) : Type := world → result A * world.

Global Instance M_ret : MRet M := λ A a w, (Ok a, w).
Global Instance M_bind : MBind M := λ A B k m w,
  match m w with
  | (Ok a, w') => k a w'
  | (Raise e, w') => (Raise e, w')
  end.

Definition raise {A} (e : exn) : M A := λ w, (Raise e, w).
Definition lift {A} (r : result A) : M A := λ w, (r, w).
Definition gets {A} (f : world → A) : M A := λ w, (Ok (f w), w).
Definition modify (f : world → world) : M unit := λ w, (Ok (), f w).

Fixpoint for_each_M {A S} (body : S → A → M S) (xs : list A) (s : S) : M S :=
  match xs with
  | [] => mret s
  | x :: xs' => s' ← body s x; for_each_M body xs' s'
  end.

(** [p.is_dir()] *)
Definition is_dir (p : path) : M bool :=
  gets (λ w, match resolve (root w) p with Some (Dir _) => true | _ => false end).

(** [list(p.iterdir())], in the order the directory reports. *)
Definition iterdir (p : path) : M (list path) :=
  r ← gets root;
  match resolve r p with
  | Some (Dir entries) => mret ((λ e, p ++ [e.1]) <$> entries)
  | Some (File _) => raise NotADirectoryError
  | None => raise FileNotFoundError
  end.

(** [Image.open(p)] *)
Definition Image_open (p : path) : M Image :=
  r ← gets root;
  match resolve r p with
  | Some (File (ImageFile image)) => mret image
  | Some (File _) => raise UnidentifiedImageError
  | Some (Dir _) => raise IsADirectoryError
  | None => raise FileNotFoundError
  end.

(** [p.write_text(json.dumps(doc, ensure_ascii=False, indent=2))] *)
Definition write_text (p : path) (doc : pyval) : M unit :=
  r ← gets root;
  r' ← lift (store r p doc);
  modify (set_root r').

Definition print (line : string) : M unit := modify (add_stdout line).

(** ** iter_images *)

Definition SUPPORTED_EXTENSIONS : gset string :=
  {[ ".png"; ".jpg"; ".jpeg"; ".tif"; ".tiff"; ".bmp" ]}.

Definition supported (p : path) : Prop :=
  PyStr.lower (path_suffix p) ∈ SUPPORTED_EXTENSIONS.

Definition iter_images (folder : path) : M (list path) :=
  entries ← iterdir folder;
  mret (sorted (filter supported entries)).

(** ** configure_tesseract *)

Definition truthy (o : option string) : bool :=
  match o with
  | Some s => negb (PyStr.is_empty s)
  | None => false
  end.

Definition configure_tesseract (cmd : option string) : M unit :=
  env ← gets environ;
  let resolved_cmd := if truthy cmd then cmd else env !! "TESSERACT_CMD" in
  (if truthy resolved_cmd
   then modify (set_tesseract_cmd (default "" resolved_cmd))
   else mret ());;
  w ← gets id;
  if negb (which w (tesseract_cmd w)) then
    raise (SystemExit
      ("Tesseract executable not found. Install tesseract or provide the path via "
       +:+ "--tesseract-cmd or the TESSERACT_CMD environment variable."))
  else
    match tesseract_version w (tesseract_cmd w) with
    | Ok _ => mret ()
    | Raise TesseractNotFoundError =>
        raise (SystemExit
          ("Tesseract is not available. Install it or provide the path via "
           +:+ "--tesseract-cmd or the TESSERACT_CMD environment variable."))
    | Raise e => raise e
    end.

(** ** main *)

Record Namespace := {
  args_img_dir : string;
  args_output : string;
  args_tesseract_cmd : option string;
}.

(** The body of the loop of [main]; [images] is [result["images"]]. *)
Definition main_body (images : list pyval) (image_path : path) : M (list pyval) :=
  image ← Image_open image_path;
  rotation ← lift (detect_orientation image);
  words ← lift (extract_words image rotation);
  mret (images ++
        [VDict [("file", VStr (path_str image_path));
                ("rotation", VInt rotation);
                ("words", VList words)]]).

Definition main (args : Namespace) : M unit :=
  configure_tesseract (args_tesseract_cmd args);;
  let img_dir := Path (args_img_dir args) in
  d ← is_dir img_dir;
  if negb d then
    raise (SystemExit ("Image directory not found: " +:+ path_str img_dir))
  else
    paths ← iter_images img_dir;
    images ← for_each_M main_body paths [];
    let result := VDict [("images", VList images)] in
    let output_path := Path (args_output args) in
    write_text output_path result;;
    print ("Wrote OCR results to " +:+ path_str output_path).

(** The exit status of the process when [main] ends with [r]. *)
Definition exit_status (r : result unit) : Z :=
  match r with
  | Ok _ => 0
  | Raise _ => 1
  end.

(** ** Auxiliary definitions for the statements *)

(** What one round of the loop of [extract_words] contributes at index
    [i]: nothing for a blank token, otherwise its record. *)
Definition word_at (data : table) (rotation : Z) (i : nat) : result (option pyval) :=
  text ← cell data "text" i ≫= py_strip;
  if PyStr.is_empty text then Ok None
  else
    left ← cell data "left" i ≫= py_int;
    top ← cell data "top" i ≫= py_int;
    width ← cell data "width" i ≫= py_int;
    height ← cell data "height" i ≫= py_int;
    center_x ← int_truediv width 2 ≫= int_add_float left;
    center_y ← int_truediv height 2 ≫= int_add_float top;
    confidence ← cell data "conf" i ≫= py_float;
    Ok (Some
        (VDict [("text", VStr text);
                ("rotation", VInt rotation);
                ("position",
                  VDict [("left", VInt left);
                         ("top", VInt top);
                         ("right", VInt (left + width));
                         ("bottom", VInt (top + height));
                         ("center_x", VFloat center_x);
                         ("center_y", VFloat center_y)]);
                ("font_size", VInt height);
                ("confidence", VFloat confidence)])).

(** A token of the text column whose trimmed text is not empty. *)
Definition nonblank (v : pyval) : bool :=
  match v with
  | VStr s => negb (PyStr.all_space s)
  | _ => false
  end.

(** The number of non-blank tokens before index [i]: the position of the
    record of token [i] in the output. *)
Definition rank (texts : list pyval) (i : nat) : nat :=
  length (filter (λ v, nonblank v = true) (take i texts)).

(** [w["position"][k]] *)
Definition position (k : string) (w : pyval) : option pyval :=
  field "position" w ≫= field k.

(** The columns read next to the text column. *)
Definition numeric_columns : list string :=
  ["left"; "top"; "width"; "height"; "conf"].

(** The record [extract_words] appends for one token. *)
Definition word_record (text : string) (rotation left top width height : Z)
    (center_x center_y confidence : float) : pyval :=
  VDict [("text", VStr text);
         ("rotation", VInt rotation);
         ("position",
           VDict [("left", VInt left);
                  ("top", VInt top);
                  ("right", VInt (left + width));
                  ("bottom", VInt (top + height));
                  ("center_x", VFloat center_x);
                  ("center_y", VFloat center_y)]);
         ("font_size", VInt height);
         ("confidence", VFloat confidence)].

(** The state of [words] after the first [n] rounds of the loop. *)
Definition words_upto (data : table) (rotation : Z) (n : nat) : result (list pyval) :=
  for_each (extract_words_body data rotation) (seq 0 n) [].

(** A table with the six columns [extract_words] reads. *)
Definition make_table (text left top width height conf : list pyval) : table :=
  <["text" := text]> (<["left" := left]> (<["top" := top]>
    (<["width" := width]> (<["height" := height]> (<["conf" := conf]> ∅))))).

Definition make_image (osd : string) (data : table) : Image :=
  {| image_to_osd := Ok osd; image_to_data := Ok data |}.

(** The image of the specification's end-to-end scenario: the tokens
    [("Hello", 10, 10, 50, 20, 95.0)] and [("", 5, 5, 1, 1, 0.0)]. *)
Definition hello_texts : list pyval := [VStr "Hello"; VStr ""].

Definition hello_table : table :=
  make_table hello_texts
    [VInt 10; VInt 5] [VInt 10; VInt 5] [VInt 50; VInt 1] [VInt 20; VInt 1]
    [VFloat (normalize 95 0); VFloat (S754_zero false)].

Definition hello_image : Image :=
  make_image "Orientation: 0
Rotate: 0
" hello_table.

(** A table whose [left] column is shorter than its [text] column. *)
Definition short_image : Image :=
  make_image "" (make_table [VStr "Hello"] [] [VInt 10] [VInt 50] [VInt 20] [VInt 95]).

(** Whether the character [c] occurs in [s]. *)
Fixpoint occurs (c : ascii) (s : string) : bool :=
  match s with
  | EmptyString => false
  | String d s' => bool_decide (d = c) || occurs c s'
  end.

(** The part of [line] after its first colon, if it has a colon. *)
Fixpoint after_first_colon (line : string) : option string :=
  match line with
  | EmptyString => None
  | String c rest =>
      if bool_decide (c = ":"%char) then Some rest else after_first_colon rest
  end.

(** The rotation a line states, in the specification's words: split the
    line on its first colon and parse the remainder, stripped of
    whitespace, as an integer. *)
Definition rotation_of_line (line : string) : result Z :=
  match after_first_colon line with
  | Some rest => int_of_str (PyStr.strip rest)
  | None => Raise ValueError
  end.

(** The orientation of a block, in the specification's words: the
    rotation of the first line that contains "Rotate", and 0 when no line
    does. *)
Definition detect_orientation_spec (osd : string) : result Z :=
  match find (PyStr.contains "Rotate") (PyStr.splitlines osd) with
  | Some line => rotation_of_line line
  | None => Ok 0
  end.

(** A process state with the engine installed and the tree [tree] as
    working directory. *)
Definition make_world (tree : node) : world :=
  {| environ := ∅; tesseract_cmd := "tesseract"; which := λ _, true;
     tesseract_version := λ _, Ok (); root := tree; stdout := [] |}.

(** The directory of the specification's enumeration example, listed in
    an order that is not sorted. *)
Definition listing_world : world :=
  make_world
    (Dir [("img",
           Dir [("d.tiff", File OtherFile); ("c.txt", File OtherFile);
                ("b.jpg", File OtherFile); ("a.PNG", File OtherFile)])]).

(** An image directory that holds a subdirectory named like an image. *)
Definition subdir_world : world :=
  make_world (Dir [("img", Dir [("scans.png", Dir [("page1.txt", File OtherFile)])])]).

(** The entry [main] appends for one image. *)
Definition image_entry (image_path : path) (rotation : Z) (words : list pyval) : pyval :=
  VDict [("file", VStr (path_str image_path));
         ("rotation", VInt rotation);
         ("words", VList words)].

(** The report for an empty list of images. *)
Definition empty_report : pyval := VDict [("images", VList [])].

Definition default_args : Namespace :=
  {| args_img_dir := "img"; args_output := "ocr_output.json";
     args_tesseract_cmd := None |}.

(** An image whose orientation block states a rotation of 45 degrees. *)
Definition tilted_image : Image :=
  make_image "Orientation in degrees: 0
Rotate: 45
" hello_table.

Definition tilted_world : world :=
  make_world (Dir [("img", Dir [("a.png", File (ImageFile tilted_image))])]).

(** The specification's end-to-end scenario: one image in the directory. *)
Definition hello_world : world :=
  make_world (Dir [("img", Dir [("hello.png", File (ImageFile hello_image))])]).

(** An image directory without images and a process state without the
    engine. *)
Definition empty_dir_world : world := make_world (Dir [("img", Dir [])]).

Definition no_engine_world : world :=
  {| environ := ∅; tesseract_cmd := "tesseract"; which := λ _, false;
     tesseract_version := λ _, Raise TesseractNotFoundError;
     root := Dir [("img", Dir [])]; stdout := [] |}.



(** The record of the token "Hello" in the end-to-end scenario. *)
Definition hello_record : pyval :=
  word_record "Hello" 0 10 10 50 20
    (normalize 35 0) (normalize 20 0) (normalize 95 0).

(** A process state whose working directory has no [img] entry. *)
Definition no_dir_world : world := make_world (Dir [("notes.txt", File OtherFile)]).

(** [float_is f n b]: the float [f] is the number [n * 2^b]. *)
Definition float_is (f : float) (n b : Z) : Prop :=
  match f with
  | S754_zero _ => n = 0
  | S754_finite s m e =>
      if decide (b ≤ e) then n = cond_Zopp s (Zpos m) * 2 ^ (e - b)
      else cond_Zopp s (Zpos m) = n * 2 ^ (b - e)
  | S754_infinity _ | S754_nan => False
  end.

(** [float_low f n b]: [f] is the number [n * 2^b] and its exponent is at
    most [b]. *)
Definition float_low (f : float) (n b : Z) : Prop :=
  match f with
  | S754_zero _ => n = 0
  | S754_finite s m e => e ≤ b ∧ cond_Zopp s (Zpos m) = n * 2 ^ (b - e)
  | S754_infinity _ | S754_nan => False
  end.




(** The command [configure_tesseract] settles on: the argument when it is
    a non-empty string, else the environment variable when it is set to a
    non-empty string, else the command configured before. *)
Definition resolved_command (cmd : option string) (w : world) : string :=
  match cmd with
  | Some c => if PyStr.is_empty c then
                match environ w !! "TESSERACT_CMD" with
                | Some c' => if PyStr.is_empty c' then tesseract_cmd w else c'
                | None => tesseract_cmd w
                end
              else c
  | None =>
      match environ w !! "TESSERACT_CMD" with
      | Some c' => if PyStr.is_empty c' then tesseract_cmd w else c'
      | None => tesseract_cmd w
      end
  end.

(** The indices of the non-blank tokens, in increasing order. *)
Definition token_indices (texts : list pyval) : list nat :=
  filter (λ i, from_option nonblank false (texts !! i) = true)
    (seq 0 (length texts)).

(** A row the five numeric reads succeed on: ints of moderate size in the
    box columns, and a float or an int as confidence. *)
Definition plain_row (data : table) (i : nat) : Prop :=
  (∀ c, c ∈ ["left"; "top"; "width"; "height"] →
     ∃ z, cell data c i = Ok (VInt z) ∧ Z.abs z < 2 ^ 51) ∧
  (∃ v, cell data "conf" i = Ok v ∧
     ((∃ f, v = VFloat f) ∨ (∃ z, v = VInt z ∧ Z.abs z < 2 ^ 53))).

(** The directory of [listing_world], reported in another order. *)
Definition listing_world_2 : world :=
  make_world
    (Dir [("img",
           Dir [("a.PNG", File OtherFile); ("b.jpg", File OtherFile);
                ("c.txt", File OtherFile); ("d.tiff", File OtherFile)])]).

(** The table of [hello_image] without its [left] column. *)
Definition no_left_image : Image :=
  make_image "" (delete "left" hello_table).

(** * Properties *)

(** ** Results *)

Lemma bind_Ok {A B} (r : result A) (k : A → result B) (b : B) :
  r ≫= k = Ok b ↔ ∃ a, r = Ok a ∧ k a = Ok b.
Proof.
  destruct r as [a|e]; simpl.
  - split; [eauto|]. by intros (? & [= <-] & ?).
  - split; [done|]. by intros (? & ? & ?).
Qed.

Lemma bind_Raise {A B} (r : result A) (k : A → result B) (e : exn) :
  r ≫= k = Raise e ↔ r = Raise e ∨ ∃ a, r = Ok a ∧ k a = Raise e.
Proof.
  destruct r as [a|e']; simpl.
  - split; [eauto|]. by intros [?|(? & [= <-] & ?)].
  - split; [by intros [= <-]; left|]. by intros [[= <-]|(? & ? & ?)].
Qed.

Lemma for_each_app {A S} (body : S → A → result S) (xs ys : list A) (s : S) :
  for_each body (xs ++ ys) s = for_each body xs s ≫= for_each body ys.
Proof.
  revert s. induction xs as [|x xs IH]; intros s; simpl; [done|].
  destruct (body s x); simpl; auto.
Qed.

Lemma for_each_Raise {A S} (body : S → A → result S) (xs : list A) (s : S) e :
  for_each body xs s = Raise e → ∃ x s', x ∈ xs ∧ body s' x = Raise e.
Proof.
  revert s. induction xs as [|x xs IH]; intros s; simpl; [done|].
  destruct (body s x) as [s'|e'] eqn:Hb; simpl.
  - intros (y & s'' & ? & ?)%IH. exists y, s''. split; [by right|done].
  - intros [= ->]. exists x, s. split; [by left|done].
Qed.

(** ** Strings *)

Lemma is_empty_true s : PyStr.is_empty s = true ↔ s = "".
Proof. by destruct s. Qed.

Lemma is_empty_strip s : PyStr.is_empty (PyStr.strip s) = PyStr.all_space s.
Proof.
  unfold PyStr.strip. induction s as [|c s IH]; simpl; [done|].
  destruct (PyStr.is_space c) eqn:Hc; simpl; [done|]. by rewrite Hc.
Qed.

Lemma strip_empty s : PyStr.strip s = "" ↔ PyStr.all_space s = true.
Proof. by rewrite <-is_empty_strip, is_empty_true. Qed.

(** ** Binary64 arithmetic on small integers *)

Lemma digits2_log2 p : Zpos (digits2_pos p) = Z.log2 (Zpos p) + 1.
Proof.
  assert (∀ q, digits2_pos q = Pos.size q) as Hsize.
  { induction q; simpl; by rewrite ?IHq. }
  destruct p; simpl; rewrite ?Hsize; lia.
Qed.

Lemma digits2_shift p k :
  0 ≤ k → ∀ q, Zpos q = Zpos p * 2 ^ k →
  Zpos (digits2_pos q) = Zpos (digits2_pos p) + k.
Proof.
  intros Hk q Hq. rewrite !digits2_log2, Hq, Z.log2_mul_pow2 by lia. lia.
Qed.

Lemma digits2_bound p b : 0 ≤ b → Zpos p < 2 ^ b → Zpos (digits2_pos p) ≤ b.
Proof.
  intros Hb Hp. rewrite digits2_log2.
  apply Z.log2_lt_pow2 in Hp; lia.
Qed.

Lemma iter_xO p d : Zpos (Pos.iter xO p d) = Zpos p * 2 ^ Zpos d.
Proof.
  induction d as [|d IH] using Pos.peano_ind.
  - simpl. lia.
  - rewrite Pos.iter_succ, Pos2Z.inj_xO, IH, Pos2Z.inj_succ, Z.pow_succ_r by lia. lia.
Qed.

(** Shifting right over zero bits loses nothing. *)
Lemma iter_shr_1_exact p m :
  0 < m →
  SpecFloat.iter_pos shr_1 p {| shr_m := m * 2 ^ Zpos p; shr_r := false; shr_s := false |}
  = {| shr_m := m; shr_r := false; shr_s := false |}.
Proof.
  assert (∀ x, 0 < x → shr_1 {| shr_m := x * 2; shr_r := false; shr_s := false |}
                        = {| shr_m := x; shr_r := false; shr_s := false |}) as Hone.
  { intros [|x|x] Hx; try lia. simpl. by rewrite Pos.mul_comm. }
  revert m. induction p as [p IH|p IH|]; intros m Hm; cbn [SpecFloat.iter_pos].
  - replace (m * 2 ^ Zpos p~1) with ((m * 2 ^ Zpos p * 2 ^ Zpos p) * 2).
    + rewrite Hone by lia. rewrite IH by lia. by apply IH.
    + rewrite (Pos2Z.inj_xI p). replace (2 * Zpos p + 1) with (Zpos p + Zpos p + 1) by lia.
      rewrite !Z.pow_add_r, Z.pow_1_r by lia. ring.
  - replace (m * 2 ^ Zpos p~0) with ((m * 2 ^ Zpos p) * 2 ^ Zpos p).
    + rewrite IH by lia. by apply IH.
    + rewrite (Pos2Z.inj_xO p). replace (2 * Zpos p) with (Zpos p + Zpos p) by lia.
      rewrite Z.pow_add_r by lia. ring.
  - rewrite Z.pow_1_r. by apply Hone.
Qed.

Lemma fexp_binary64 x : fexp prec emax x = Z.max (x - 53) (-1074).
Proof. reflexivity. Qed.

Lemma shr_fexp_exact q e :
  shr_fexp prec emax (Zpos q) e loc_Exact
  = shr {| shr_m := Zpos q; shr_r := false; shr_s := false |} e
      (fexp prec emax (Zpos (digits2_pos q) + e) - e).
Proof. reflexivity. Qed.

(** Rounding a number that needs no rounding: the mantissa [q] at
    exponent [e] either fits, or its surplus low bits are zero. *)
Lemma binary_round_aux_exact s q e :
  let p := fexp prec emax (Zpos (digits2_pos q) + e) - e in
  (p ≤ 0 ∨ ∃ q', Zpos q = Zpos q' * 2 ^ p) →
  e ≤ 971 → e + p ≤ 971 →
  ∃ m, binary_round_aux prec emax s (Zpos q) e loc_Exact
       = S754_finite s m (e + Z.max p 0)
     ∧ Zpos q = Zpos m * 2 ^ Z.max p 0.
Proof.
  intros p Hp He Hep. unfold binary_round_aux. rewrite shr_fexp_exact. fold p.
  assert (p = fexp prec emax (Zpos (digits2_pos q) + e) - e) as Hpdef by done.
  destruct (decide (p ≤ 0)) as [Hle|Hgt].
  - assert (shr {| shr_m := Zpos q; shr_r := false; shr_s := false |} e p
            = ({| shr_m := Zpos q; shr_r := false; shr_s := false |}, e)) as ->.
    { by destruct p. }
    cbn [shr_m loc_of_shr_record round_nearest_even].
    rewrite shr_fexp_exact. fold p. clearbody p.
    assert (shr {| shr_m := Zpos q; shr_r := false; shr_s := false |} e p
            = ({| shr_m := Zpos q; shr_r := false; shr_s := false |}, e)) as ->.
    { by destruct p. }
    cbn [shr_m]. replace (e <=? emax - prec) with true
      by (symmetry; apply Z.leb_le; unfold emax, prec; lia).
    exists q. rewrite Z.max_r by lia. rewrite Z.add_0_r, Z.pow_0_r. split; [done|lia].
  - destruct Hp as [?|(q' & Hq)]; [lia|]. clearbody p.
    destruct p as [|pp|pp]; try lia.
    cbn [shr]. rewrite Hq, iter_shr_1_exact by lia.
    cbn [shr_m loc_of_shr_record round_nearest_even].
    rewrite shr_fexp_exact.
    assert (fexp prec emax (Zpos (digits2_pos q') + (e + Zpos pp)) - (e + Zpos pp) = 0)
      as ->.
    { rewrite (digits2_shift q' (Zpos pp) ltac:(lia) q Hq) in Hpdef.
      rewrite fexp_binary64 in *. lia. }
    cbn [shr shr_m]. replace (e + Zpos pp <=? emax - prec) with true
      by (symmetry; apply Z.leb_le; unfold emax, prec; lia).
    exists q'. by rewrite Z.max_l by lia.
Qed.

Lemma pow2_split a b : 0 ≤ a → 0 ≤ b → 2 ^ (a + b) = 2 ^ a * 2 ^ b.
Proof. intros. by rewrite Z.pow_add_r. Qed.

(** The mantissa [q] at exponent [e] stands for [n * 2^b] with [n] below
    [2^53]: rounding returns that number. *)
Lemma binary_round_aux_low s q e b n :
  e ≤ b → Zpos q = Zpos n * 2 ^ (b - e) → Zpos n < 2 ^ 53 → -1021 ≤ b ≤ 900 →
  float_low (binary_round_aux prec emax s (Zpos q) e loc_Exact) (cond_Zopp s (Zpos n)) b.
Proof.
  intros He Hq Hn Hb.
  pose proof (digits2_shift n (b - e) ltac:(lia) q Hq) as Hd.
  pose proof (digits2_bound n 53 ltac:(lia) Hn) as Hdn.
  assert (fexp prec emax (Zpos (digits2_pos q) + e) - e
          = Zpos (digits2_pos n) + b - 53 - e) as Hp.
  { rewrite fexp_binary64, Hd. lia. }
  destruct (binary_round_aux_exact s q e) as (m & -> & Hm).
  - rewrite Hp. destruct (decide (Zpos (digits2_pos n) + b - 53 - e ≤ 0)); [by left|].
    right. exists (Z.to_pos (Zpos n * 2 ^ (b - e - (Zpos (digits2_pos n) + b - 53 - e)))).
    rewrite Z2Pos.id by (apply Z.mul_pos_pos; [lia|apply Z.pow_pos_nonneg; lia]).
    rewrite Hq, <-Z.mul_assoc, <-pow2_split by lia. do 2 f_equal. lia.
  - lia.
  - rewrite Hp. lia.
  - rewrite Hp in *. simpl. split; [lia|].
    assert (Zpos m = Zpos n * 2 ^ (b - (e + Z.max (Zpos (digits2_pos n) + b - 53 - e) 0)))
      as Hm'.
    { apply (Z.mul_reg_r _ _ (2 ^ Z.max (Zpos (digits2_pos n) + b - 53 - e) 0)).
      - apply Z.pow_nonzero; lia.
      - rewrite <-Hm, Hq, <-Z.mul_assoc, <-pow2_split by lia. do 2 f_equal. lia. }
    destruct s; simpl; lia.
Qed.

Lemma binary_round_low s q e b n :
  e ≤ b → Zpos q = Zpos n * 2 ^ (b - e) → Zpos n < 2 ^ 53 → -1021 ≤ b ≤ 900 →
  float_low (binary_round prec emax s q e) (cond_Zopp s (Zpos n)) b.
Proof.
  intros He Hq Hn Hb. unfold binary_round, shl_align.
  destruct (fexp prec emax (Zpos (digits2_pos q) + e) - e) as [|d|d] eqn:Hd;
    try by apply binary_round_aux_low.
  apply binary_round_aux_low; [lia| |done..].
  rewrite iter_xO, Hq, <-Z.mul_assoc, <-pow2_split by lia. do 2 f_equal. lia.
Qed.

Lemma float_low_is f n b : float_low f n b → float_is f n b.
Proof.
  destruct f as [s|s| |s m e]; simpl; try done. intros [He Hm].
  destruct (decide (b ≤ e)); [|done].
  assert (e = b) as -> by lia. rewrite Z.sub_diag in *. lia.
Qed.

(** [float(a)] for an int of at most 53 bits. *)
Lemma float_of_int_low a :
  Z.abs a < 2 ^ 53 → ∃ x, float_of_int a = Ok x ∧ float_low x a 0.
Proof.
  intros Ha. unfold float_of_int, normalize, binary_normalize.
  destruct a as [|n|n]; simpl in Ha.
  - by exists (S754_zero false).
  - assert (float_low (binary_round prec emax false n 0) (Zpos n) 0) as H.
    { apply (binary_round_low false n 0 0 n); [lia|simpl; lia|lia|lia]. }
    destruct (binary_round prec emax false n 0) as [s|s| |s m e] eqn:Hr; try done.
    by exists (S754_finite s m e).
  - assert (float_low (binary_round prec emax true n 0) (Zneg n) 0) as H.
    { apply (binary_round_low true n 0 0 n); [lia|simpl; lia|lia|lia]. }
    destruct (binary_round prec emax true n 0) as [s|s| |s m e] eqn:Hr; try done.
    by exists (S754_finite s m e).
Qed.

Lemma div_eucl_double x : Z.div_eucl (x * 2) 2 = (x, 0).
Proof.
  pose proof (Z.div_mul x 2 ltac:(lia)) as Hq.
  pose proof (Z.mod_mul x 2 ltac:(lia)) as Hr.
  unfold Z.div, Z.modulo in *. by destruct (Z.div_eucl (x * 2) 2) as [q r]; subst.
Qed.

(** Halving an int of at most 53 bits is exact. *)
Lemma round_quotient_half neg n :
  Zpos n < 2 ^ 53 →
  float_low (round_quotient neg (Zpos n) 2) (cond_Zopp neg (Zpos n)) (-1).
Proof.
  intros Hn. pose proof (digits2_bound n 53 ltac:(lia) Hn) as Hdn.
  assert (0 < Zpos (digits2_pos n)) as Hd0 by lia.
  assert (SFdiv_core_binary prec emax (Zpos n) 0 2 0
          = (Zpos n * 2 ^ (54 - Zpos (digits2_pos n)),
             Zpos (digits2_pos n) - 55, loc_Exact)) as Hcore.
  { unfold SFdiv_core_binary. cbn [Zdigits2].
    change (Zpos (digits2_pos 2)) with 2.
    rewrite fexp_binary64.
    replace (Z.min (Z.max (Zpos (digits2_pos n) + 0 - (2 + 0) - 53) (-1074)) (0 - 0))
      with (Zpos (digits2_pos n) - 55) by lia.
    destruct (0 - 0 - (Zpos (digits2_pos n) - 55)) as [|s|s] eqn:Hs; try lia.
    rewrite Z.shiftl_mul_pow2 by lia.
    replace (Zpos n * 2 ^ Zpos s) with (Zpos n * 2 ^ (54 - Zpos (digits2_pos n)) * 2).
    - by rewrite div_eucl_double.
    - rewrite <-Z.mul_assoc. f_equal.
      replace (Zpos s) with (54 - Zpos (digits2_pos n) + 1) by lia.
      rewrite pow2_split by lia. lia. }
  unfold round_quotient. rewrite Hcore.
  assert (0 < Zpos n * 2 ^ (54 - Zpos (digits2_pos n))) as Hpos
    by (apply Z.mul_pos_pos; [lia|apply Z.pow_pos_nonneg; lia]).
  destruct (Zpos n * 2 ^ (54 - Zpos (digits2_pos n))) as [|q|q] eqn:Hq; try lia.
  apply binary_round_aux_low; [lia| |done|lia].
  rewrite <-Hq. do 2 f_equal. lia.
Qed.

Lemma int_truediv_half w :
  Z.abs w < 2 ^ 53 → ∃ y, int_truediv w 2 = Ok y ∧ float_low y w (-1).
Proof.
  intros Hw. destruct w as [|n|n]; simpl in Hw.
  - by exists (S754_zero false).
  - change (int_truediv (Zpos n) 2)
      with (finite_or_overflow (round_quotient false (Zpos n) 2)).
    pose proof (round_quotient_half false n Hw) as H.
    destruct (round_quotient false (Zpos n) 2) as [s|s| |s m e]; try done.
    by exists (S754_finite s m e).
  - change (int_truediv (Zneg n) 2)
      with (finite_or_overflow (round_quotient true (Zpos n) 2)).
    pose proof (round_quotient_half true n Hw) as H.
    destruct (round_quotient true (Zpos n) 2) as [s|s| |s m e]; try done.
    by exists (S754_finite s m e).
Qed.

Lemma shl_align_fst m e e' :
  e' ≤ e → Zpos (shl_align m e e').1 = Zpos m * 2 ^ (e - e').
Proof.
  intros He. unfold shl_align. destruct (e' - e) as [|d|d] eqn:Hd; try lia; simpl.
  - replace (e - e') with 0 by lia. lia.
  - rewrite iter_xO. do 2 f_equal. lia.
Qed.

Lemma binary_normalize_low N e b T :
  e ≤ b → N = T * 2 ^ (b - e) → Z.abs T < 2 ^ 53 → -1021 ≤ b ≤ 900 →
  float_low (binary_normalize prec emax N e false) T b.
Proof.
  intros He HN HT Hb.
  assert (0 < 2 ^ (b - e)) as Hpow by (apply Z.pow_pos_nonneg; lia).
  unfold binary_normalize. destruct N as [|q|q].
  - simpl. nia.
  - destruct T as [|t|t]; try nia.
    by apply (binary_round_low false q e b t).
  - destruct T as [|t|t]; try nia.
    apply (binary_round_low true q e b t); [done|nia|done..].
Qed.

(** [a + w / 2] in binary64 is exact when [a], [w] and [2 * a + w] have
    at most 53 bits. *)
Lemma float_add_half x y a w :
  float_low x a 0 → float_low y w (-1) → Z.abs (2 * a + w) < 2 ^ 53 →
  float_is (float_add x y) (2 * a + w) (-1).
Proof.
  intros Hx Hy HT. unfold float_add.
  destruct x as [sx|sx| |sx mx ex], y as [sy|sy| |sy my ey]; try done.
  - simpl in *. subst. by destruct sx, sy.
  - simpl in Hx. subst. by apply float_low_is.
  - simpl in Hy. subst. destruct Hx as [Hex Hmx]. simpl.
    rewrite Z.add_0_r. destruct (decide (-1 ≤ ex)).
    + assert (ex = 0 ∨ ex = -1) as [-> | ->] by lia; simpl in *; lia.
    + rewrite Hmx. replace (0 - ex) with (1 + (-1 - ex)) by lia.
      rewrite pow2_split by lia. lia.
  - destruct Hx as [Hex Hmx], Hy as [Hey Hmy].
    apply float_low_is. cbn [SFadd].
    apply binary_normalize_low; [lia| |done|lia].
    rewrite !shl_align_fst by lia.
    assert (∀ s m k, cond_Zopp s (Zpos m * k) = cond_Zopp s (Zpos m) * k) as Hopp.
    { intros [] ??; simpl; lia. }
    rewrite !Hopp, Hmx, Hmy, <-!Z.mul_assoc, <-!pow2_split by lia.
    replace (0 - ex + (ex - Z.min ex ey)) with (1 + (-1 - Z.min ex ey)) by lia.
    replace (-1 - ey + (ey - Z.min ex ey)) with (-1 - Z.min ex ey) by lia.
    rewrite pow2_split by lia. lia.
Qed.

(** The centre of a box, computed as [left + width / 2] in binary64, is
    the number [(2 * left + width) / 2] when the operands have at most
    53 bits. *)
Lemma center_exact left width :
  Z.abs left < 2 ^ 53 → Z.abs width < 2 ^ 53 → Z.abs (2 * left + width) < 2 ^ 53 →
  ∃ c, int_truediv width 2 ≫= int_add_float left = Ok c ∧
       float_is c (2 * left + width) (-1).
Proof.
  intros Hl Hw HT.
  destruct (int_truediv_half width Hw) as (y & -> & Hy).
  destruct (float_of_int_low left Hl) as (x & Hx & Hxl).
  exists (float_add x y). split.
  - simpl. unfold int_add_float. by rewrite Hx.
  - by apply float_add_half.
Qed.

(** ** extract_words *)

Lemma extract_words_body_word_at data rotation words i :
  extract_words_body data rotation words i
  = word_at data rotation i ≫= λ o, Ok (words ++ option_list o).
Proof.
  unfold extract_words_body, word_at.
  destruct (cell data "text" i ≫= py_strip) as [text|]; simpl; [|done].
  destruct (PyStr.is_empty text); simpl; [by rewrite app_nil_r|].
  repeat match goal with
         | |- context [?r ≫= _] =>
             lazymatch r with
             | _ ≫= _ => fail
             | _ => destruct r; simpl; [|done]
             end
         end.
  done.
Qed.

Lemma cell_text data texts i :
  data !! "text" = Some texts → cell data "text" i = index texts i.
Proof. unfold cell, getitem. by intros ->. Qed.

Lemma cell_Ok data column i v :
  cell data column i = Ok v ↔ ∃ col, data !! column = Some col ∧ col !! i = Some v.
Proof.
  unfold cell, getitem, index. destruct (data !! column) as [col|]; simpl.
  - destruct (col !! i) eqn:Hi; split.
    + intros [= <-]. eauto.
    + by intros (? & [= <-] & ?); simplify_eq.
    + done.
    + by intros (? & [= <-] & ?); simplify_eq.
  - split; [done|]. by intros (? & ? & ?).
Qed.

Lemma py_strip_Ok v text :
  py_strip v = Ok text ↔ ∃ s, v = VStr s ∧ text = PyStr.strip s.
Proof.
  destruct v; simpl; split; try done; try by intros (? & ? & ?).
  - intros [= <-]. eauto.
  - by intros (? & [= <-] & ->).
Qed.

(** What a round of the loop reads when it appends a record. *)
Lemma word_at_Some data rotation i w :
  word_at data rotation i = Ok (Some w) ↔
  ∃ s left top width height cx cy conf,
    cell data "text" i = Ok (VStr s) ∧ PyStr.all_space s = false ∧
    cell data "left" i ≫= py_int = Ok left ∧
    cell data "top" i ≫= py_int = Ok top ∧
    cell data "width" i ≫= py_int = Ok width ∧
    cell data "height" i ≫= py_int = Ok height ∧
    int_truediv width 2 ≫= int_add_float left = Ok cx ∧
    int_truediv height 2 ≫= int_add_float top = Ok cy ∧
    cell data "conf" i ≫= py_float = Ok conf ∧
    w = word_record (PyStr.strip s) rotation left top width height cx cy conf.
Proof.
  unfold word_at. split.
  - intros (text & (v & Hv & (s & -> & ->)%py_strip_Ok)%bind_Ok & H)%bind_Ok.
    rewrite is_empty_strip in H. destruct (PyStr.all_space s) eqn:Hs; [done|].
    apply bind_Ok in H as (left & Hl & H). apply bind_Ok in H as (top & Ht & H).
    apply bind_Ok in H as (width & Hw & H). apply bind_Ok in H as (height & Hh & H).
    apply bind_Ok in H as (cx & Hcx & H). apply bind_Ok in H as (cy & Hcy & H).
    apply bind_Ok in H as (conf & Hc & [= <-]).
    by exists s, left, top, width, height, cx, cy, conf.
  - intros (s & left & top & width & height & cx & cy & conf
            & Hs & Hb & Hl & Ht & Hw & Hh & Hcx & Hcy & Hc & ->).
    rewrite Hs; simpl. rewrite is_empty_strip, Hb.
    rewrite Hl; simpl. rewrite Ht; simpl. rewrite Hw; simpl. rewrite Hh; simpl.
    rewrite Hcx; simpl. rewrite Hcy; simpl. by rewrite Hc.
Qed.

Lemma word_at_None data rotation i :
  word_at data rotation i = Ok None ↔
  ∃ s, cell data "text" i = Ok (VStr s) ∧ PyStr.all_space s = true.
Proof.
  unfold word_at. split.
  - intros (text & (v & Hv & (s & -> & ->)%py_strip_Ok)%bind_Ok & H)%bind_Ok.
    rewrite is_empty_strip in H. destruct (PyStr.all_space s) eqn:Hs; [eauto|].
    repeat (apply bind_Ok in H as (? & _ & H)). done.
  - intros (s & -> & Hs); simpl. by rewrite is_empty_strip, Hs.
Qed.

Lemma word_at_Ok_text data rotation i o :
  word_at data rotation i = Ok o →
  ∃ s, cell data "text" i = Ok (VStr s) ∧ nonblank (VStr s) = bool_decide (is_Some o).
Proof.
  destruct o as [w|].
  - intros (s & ? & ? & ? & ? & ? & ? & ? & Hs & Hb & _)%word_at_Some.
    exists s. split; [done|]. simpl. by rewrite Hb.
  - intros (s & Hs & Hb)%word_at_None. exists s. split; [done|].
    simpl. by rewrite Hb.
Qed.

Lemma words_upto_S data rotation n :
  words_upto data rotation (S n)
  = words_upto data rotation n ≫= λ ws, extract_words_body data rotation ws n.
Proof.
  unfold words_upto. rewrite seq_S, for_each_app. simpl.
  destruct (for_each _ _ _) as [ws|]; simpl; [|done].
  by destruct (extract_words_body data rotation ws n).
Qed.

Lemma rank_S texts n v :
  texts !! n = Some v →
  rank texts (S n) = (rank texts n + if nonblank v then 1 else 0)%nat.
Proof.
  intros Hn. unfold rank. rewrite (take_S_r _ _ _ Hn), filter_app, length_app.
  f_equal. destruct (nonblank v) eqn:Hv.
  - by rewrite filter_cons_True.
  - rewrite filter_cons_False; [done|]. by rewrite Hv.
Qed.

(** The loop invariant of [extract_words]. *)
Lemma words_upto_inv data rotation texts n ws :
  data !! "text" = Some texts →
  words_upto data rotation n = Ok ws →
  length ws = rank texts n ∧
  (∀ i, (i < n)%nat → ∃ s, texts !! i = Some (VStr s)) ∧
  (∀ i v, (i < n)%nat → texts !! i = Some v → nonblank v = true →
     ∃ w, word_at data rotation i = Ok (Some w) ∧ ws !! rank texts i = Some w) ∧
  (∀ w, w ∈ ws → ∃ i, (i < n)%nat ∧ word_at data rotation i = Ok (Some w)).
Proof.
  intros Ht. revert ws. induction n as [|n IH]; intros ws'.
  - intros [= <-]. split_and!; [done|lia|lia|]. by intros ? ?%elem_of_nil.
  - rewrite words_upto_S. intros (ws & Hws & Hb)%bind_Ok.
    destruct (IH ws Hws) as (Hlen & Hstr & Hrec & Hfrom).
    rewrite extract_words_body_word_at in Hb.
    apply bind_Ok in Hb as (o & Ho & [= <-]).
    destruct (word_at_Ok_text _ _ _ _ Ho) as (s & Hs & Hnb).
    rewrite (cell_text _ _ _ Ht) in Hs. unfold index in Hs.
    destruct (texts !! n) as [v|] eqn:Hn; [|done]. injection Hs as ->.
    split_and!.
    + rewrite length_app, (rank_S _ _ _ Hn), Hlen, Hnb. f_equal.
      destruct o; simpl; by rewrite ?bool_decide_true, ?bool_decide_false
        by (by eauto || by intros []).
    + intros i Hi. destruct (decide (i = n)) as [->|]; [eauto|]. apply Hstr. lia.
    + intros i v Hi Hv Hvb. destruct (decide (i = n)) as [->|].
      * rewrite Hn in Hv. injection Hv as <-. rewrite Hvb in Hnb.
        destruct o as [w|]; [|by rewrite bool_decide_false in Hnb by by intros []].
        exists w. split; [done|]. rewrite <-Hlen. simpl.
        by rewrite lookup_app_r, Nat.sub_diag by lia.
      * destruct (Hrec i v) as (w & Hw & Hl); [lia|done..|].
        exists w. split; [done|]. by apply lookup_app_l_Some.
    + intros w [Hw|Hw]%elem_of_app.
      * destruct (Hfrom w Hw) as (i & ? & ?). exists i. split; [lia|done].
      * destruct o as [w'|]; simpl in Hw; [|by apply elem_of_nil in Hw].
        apply list_elem_of_singleton in Hw as ->. exists n. split; [lia|done].
Qed.

Lemma extract_words_Ok image rotation ws :
  extract_words image rotation = Ok ws ↔
  ∃ data texts, image_to_data image = Ok data ∧ data !! "text" = Some texts ∧
    words_upto data rotation (length texts) = Ok ws.
Proof.
  unfold extract_words, words_upto, getitem. split.
  - intros (data & Hd & (texts & Ht & H)%bind_Ok)%bind_Ok.
    destruct (data !! "text") as [col|] eqn:Hc; [|done]. injection Ht as ->.
    by exists data, texts.
  - intros (data & texts & -> & Ht & H). simpl. by rewrite Ht.
Qed.

Lemma filter_length_all {A} (P : A → Prop) `{∀ x, Decision (P x)} (l : list A) :
  length (filter P l) = length l ↔ Forall P l.
Proof.
  induction l as [|x l IH]; simpl; [by split|].
  destruct (decide (P x)) as [Hx|Hx].
  - rewrite filter_cons_True by done. simpl. rewrite Forall_cons.
    split; [intros [= ?%IH]; done|intros [_ ?%IH]; by f_equal].
  - rewrite filter_cons_False by done. rewrite Forall_cons.
    pose proof (length_filter P l). split; [lia|by intros [? _]].
Qed.

Lemma rank_all texts : rank texts (length texts) = length (filter (λ v, nonblank v = true) texts).
Proof. unfold rank. by rewrite firstn_all. Qed.

Lemma nonblank_strip s : nonblank (VStr s) = true ↔ PyStr.strip s ≠ "".
Proof.
  simpl. rewrite strip_empty. by destruct (PyStr.all_space s).
Qed.

(** The record of a non-blank token, found at the token's rank. *)
Lemma extract_words_token image rotation data texts ws i s :
  image_to_data image = Ok data → data !! "text" = Some texts →
  extract_words image rotation = Ok ws →
  texts !! i = Some (VStr s) → PyStr.strip s ≠ "" →
  ∃ w, ws !! rank texts i = Some w ∧ word_at data rotation i = Ok (Some w).
Proof.
  intros Hd Ht (data' & texts' & Hd' & Ht' & Hws)%extract_words_Ok Hi Hs.
  rewrite Hd in Hd'. injection Hd' as <-. rewrite Ht in Ht'. injection Ht' as <-.
  destruct (words_upto_inv _ _ _ _ _ Ht Hws) as (_ & _ & Hrec & _).
  destruct (Hrec i (VStr s)) as (w & ? & ?); [|done|by apply nonblank_strip|eauto].
  by eapply lookup_lt_Some.
Qed.

(** C1: for a token with non-empty trimmed text, the record that
    [extract_words] builds has [right = left + width],
    [bottom = top + height], [center_x = left + width / 2] and
    [center_y = top + height / 2], where [left], [top], [width] and
    [height] are the table's values at the token's index after [int(...)],
    and [/] and [+] are Python's true division and int-plus-float. The
    two centres are floats; they are the numbers [(2 * left + width) / 2]
    and [(2 * top + height) / 2] without rounding when the operands have
    at most 53 bits. *)
Theorem extract_words_position image rotation data texts ws i s :
  image_to_data image = Ok data → data !! "text" = Some texts →
  extract_words image rotation = Ok ws →
  texts !! i = Some (VStr s) → PyStr.strip s ≠ "" →
  ∃ w left top width height center_x center_y,
    ws !! rank texts i = Some w ∧
    cell data "left" i ≫= py_int = Ok left ∧
    cell data "top" i ≫= py_int = Ok top ∧
    cell data "width" i ≫= py_int = Ok width ∧
    cell data "height" i ≫= py_int = Ok height ∧
    int_truediv width 2 ≫= int_add_float left = Ok center_x ∧
    int_truediv height 2 ≫= int_add_float top = Ok center_y ∧
    position "left" w = Some (VInt left) ∧
    position "top" w = Some (VInt top) ∧
    position "right" w = Some (VInt (left + width)) ∧
    position "bottom" w = Some (VInt (top + height)) ∧
    position "center_x" w = Some (VFloat center_x) ∧
    position "center_y" w = Some (VFloat center_y) ∧
    (Z.abs left < 2 ^ 53 → Z.abs width < 2 ^ 53 →
     Z.abs (2 * left + width) < 2 ^ 53 →
     float_is center_x (2 * left + width) (-1)) ∧
    (Z.abs top < 2 ^ 53 → Z.abs height < 2 ^ 53 →
     Z.abs (2 * top + height) < 2 ^ 53 →
     float_is center_y (2 * top + height) (-1)).
Proof.
  intros Hd Ht Hws Hi Hs.
  destruct (extract_words_token _ _ _ _ _ _ _ Hd Ht Hws Hi Hs) as (w & Hw & Hat).
  apply word_at_Some in Hat
    as (s' & left & top & width & height & cx & cy & conf
        & _ & _ & Hl & Htop & Hwd & Hh & Hcx & Hcy & _ & ->).
  exists (word_record (PyStr.strip s') rotation left top width height cx cy conf),
    left, top, width, height, cx, cy.
  split_and!; try done.
  - intros H1 H2 H3. destruct (center_exact left width H1 H2 H3) as (c & Hc & ?).
    rewrite Hcx in Hc. by injection Hc as ->.
  - intros H1 H2 H3. destruct (center_exact top height H1 H2 H3) as (c & Hc & ?).
    rewrite Hcy in Hc. by injection Hc as ->.
Qed.

(** C2: [extract_words] builds no record for a token whose trimmed text is
    empty: every record comes from a token with non-empty trimmed text and
    carries that text; there are at most as many records as tokens, and as
    many exactly when no token is blank. *)
Theorem extract_words_no_blank image rotation data texts ws :
  image_to_data image = Ok data → data !! "text" = Some texts →
  extract_words image rotation = Ok ws →
  (∀ w, w ∈ ws →
     ∃ i s, texts !! i = Some (VStr s) ∧ PyStr.strip s ≠ "" ∧
       word_at data rotation i = Ok (Some w) ∧
       field "text" w = Some (VStr (PyStr.strip s))) ∧
  (∀ i v, texts !! i = Some v → nonblank v = false →
     word_at data rotation i = Ok None) ∧
  length ws = length (filter (λ v, nonblank v = true) texts) ∧
  (length ws ≤ length texts)%nat ∧
  (length ws = length texts ↔ Forall (λ v, nonblank v = true) texts).
Proof.
  intros Hd Ht (data' & texts' & Hd' & Ht' & Hws)%extract_words_Ok.
  rewrite Hd in Hd'. injection Hd' as <-. rewrite Ht in Ht'. injection Ht' as <-.
  destruct (words_upto_inv _ _ _ _ _ Ht Hws) as (Hlen & Hstr & _ & Hfrom).
  rewrite rank_all in Hlen. split_and!.
  - intros w (i & Hi & Hat)%Hfrom. pose proof Hat as Hat'.
    apply word_at_Some in Hat'
      as (s & ? & ? & ? & ? & ? & ? & ? & Hs & Hb & _ & _ & _ & _ & _ & _ & _ & ->).
    rewrite (cell_text _ _ _ Ht) in Hs. unfold index in Hs.
    destruct (texts !! i) as [v|] eqn:Hv; [|done]. injection Hs as ->.
    exists i, s. split_and!; [done| |done..].
    rewrite strip_empty, Hb. done.
  - intros i v Hi Hv. destruct (Hstr i) as (s & Hs); [by eapply lookup_lt_Some|].
    rewrite Hs in Hi. injection Hi as <-. apply word_at_None. exists s.
    rewrite (cell_text _ _ _ Ht). unfold index. rewrite Hs. split; [done|].
    simpl in Hv. by destruct (PyStr.all_space s).
  - done.
  - rewrite Hlen. apply length_filter.
  - rewrite Hlen. apply filter_length_all.
Qed.

(** C8: the confidence of a record is [float(data["conf"][i])]: a float
    reported by the engine is stored as it is, whatever its sign or
    range, and an int is converted. *)
Theorem extract_words_confidence image rotation data texts ws i s :
  image_to_data image = Ok data → data !! "text" = Some texts →
  extract_words image rotation = Ok ws →
  texts !! i = Some (VStr s) → PyStr.strip s ≠ "" →
  ∃ w conf,
    ws !! rank texts i = Some w ∧
    cell data "conf" i ≫= py_float = Ok conf ∧
    field "confidence" w = Some (VFloat conf) ∧
    (∀ f, cell data "conf" i = Ok (VFloat f) → conf = f) ∧
    (∀ z, cell data "conf" i = Ok (VInt z) → float_of_int z = Ok conf).
Proof.
  intros Hd Ht Hws Hi Hs.
  destruct (extract_words_token _ _ _ _ _ _ _ Hd Ht Hws Hi Hs) as (w & Hw & Hat).
  apply word_at_Some in Hat
    as (s' & left & top & width & height & cx & cy & conf
        & _ & _ & _ & _ & _ & _ & _ & _ & Hc & ->).
  eexists _, conf. split_and!; [done..| |].
  - intros f Hf. rewrite Hf in Hc. by injection Hc.
  - intros z Hz. by rewrite Hz in Hc.
Qed.

(** *** Which exceptions the conversions raise *)

Lemma finite_or_overflow_Raise f e : finite_or_overflow f = Raise e → e = OverflowError.
Proof. destruct f; simpl; congruence. Qed.

Lemma float_of_int_Raise z e : float_of_int z = Raise e → e = OverflowError.
Proof. apply finite_or_overflow_Raise. Qed.

Lemma int_of_float_Raise f e :
  int_of_float f = Raise e → e = OverflowError ∨ e = ValueError.
Proof. destruct f; simpl; intros; simplify_eq; auto. Qed.

Lemma int_of_str_Raise s e : int_of_str s = Raise e → e = ValueError.
Proof.
  unfold int_of_str. destruct (signed _) as [neg body].
  destruct (digits _ _ _); congruence.
Qed.

Lemma float_of_str_Raise s e : float_of_str s = Raise e → e = ValueError.
Proof.
  unfold float_of_str. destruct (drop_underscores _ _) as [t|]; [|congruence].
  destruct (signed t) as [neg body].
  repeat case_match; congruence.
Qed.

Lemma py_int_Raise v e : py_int v = Raise e → e ≠ IndexError.
Proof.
  destruct v; simpl; try congruence.
  - by intros [->| ->]%int_of_float_Raise.
  - by intros ->%int_of_str_Raise.
Qed.

Lemma py_float_Raise v e : py_float v = Raise e → e ≠ IndexError.
Proof.
  destruct v; simpl; try congruence.
  - by intros ->%float_of_int_Raise.
  - by intros ->%float_of_str_Raise.
Qed.

Lemma py_strip_Raise v e : py_strip v = Raise e → e = AttributeError.
Proof. destruct v; simpl; congruence. Qed.

Lemma int_truediv_Raise a b e :
  int_truediv a b = Raise e → e = ZeroDivisionError ∨ e = OverflowError.
Proof.
  unfold int_truediv. destruct (b =? 0); [intros [= <-]; auto|].
  destruct (a =? 0); [done|]. intros ->%finite_or_overflow_Raise. auto.
Qed.

Lemma center_Raise a b c e :
  int_truediv a b ≫= int_add_float c = Raise e → e ≠ IndexError.
Proof.
  intros [[->| ->]%int_truediv_Raise|(h & _ & H)]%bind_Raise; [done..|].
  unfold int_add_float in H.
  apply bind_Raise in H as [->%float_of_int_Raise|(? & _ & ?)]; done.
Qed.

Lemma cell_IndexError data column i :
  cell data column i = Raise IndexError ↔
  ∃ col, data !! column = Some col ∧ (length col ≤ i)%nat.
Proof.
  unfold cell, getitem, index. destruct (data !! column) as [col|]; simpl.
  - destruct (col !! i) eqn:Hi.
    + apply lookup_lt_Some in Hi. split; [done|]. intros (? & [= <-] & ?). lia.
    + apply lookup_ge_None in Hi. split; eauto.
  - split; [done|]. by intros (? & ? & ?).
Qed.

(** A round of the loop raises [IndexError] only through a column that is
    too short at its index. *)
Lemma word_at_IndexError data rotation i :
  word_at data rotation i = Raise IndexError →
  ∃ c col, c ∈ "text" :: numeric_columns ∧ data !! c = Some col ∧ (length col ≤ i)%nat.
Proof.
  assert (∀ c, c ∈ "text" :: numeric_columns →
    cell data c i = Raise IndexError →
    ∃ c col, c ∈ "text" :: numeric_columns ∧ data !! c = Some col
      ∧ (length col ≤ i)%nat) as Hcell.
  { intros c Hc (col & ? & ?)%cell_IndexError. by exists c, col. }
  assert (∀ c (f : pyval → result Z), c ∈ "text" :: numeric_columns →
    (∀ v e, f v = Raise e → e ≠ IndexError) →
    cell data c i ≫= f = Raise IndexError →
    ∃ c col, c ∈ "text" :: numeric_columns ∧ data !! c = Some col
      ∧ (length col ≤ i)%nat) as Hint.
  { intros c f Hc Hf [?|(v & _ & ?%Hf)]%bind_Raise; [eauto|done]. }
  unfold word_at, numeric_columns.
  intros [[?|(v & _ & ?%py_strip_Raise)]%bind_Raise|(text & _ & H)]%bind_Raise;
    [apply (Hcell "text"); [repeat constructor|done]|done|].
  destruct (PyStr.is_empty text); [done|].
  apply bind_Raise in H as [H|(left & _ & H)];
    [apply (Hint "left" py_int); [repeat constructor|apply py_int_Raise|done]|].
  apply bind_Raise in H as [H|(top & _ & H)];
    [apply (Hint "top" py_int); [repeat constructor|apply py_int_Raise|done]|].
  apply bind_Raise in H as [H|(width & _ & H)];
    [apply (Hint "width" py_int); [repeat constructor|apply py_int_Raise|done]|].
  apply bind_Raise in H as [H|(height & _ & H)];
    [apply (Hint "height" py_int); [repeat constructor|apply py_int_Raise|done]|].
  apply bind_Raise in H as [H|(cx & _ & H)]; [by apply center_Raise in H|].
  apply bind_Raise in H as [H|(cy & _ & H)]; [by apply center_Raise in H|].
  apply bind_Raise in H as [[?|(v & _ & ?%py_float_Raise)]%bind_Raise|(conf & _ & H)];
    [apply (Hcell "conf"); [repeat constructor|done]|done|done].
Qed.

Lemma extract_words_Raise image rotation data texts e :
  image_to_data image = Ok data → data !! "text" = Some texts →
  extract_words image rotation = Raise e →
  ∃ i, (i < length texts)%nat ∧ word_at data rotation i = Raise e.
Proof.
  intros Hd Ht. unfold extract_words, getitem. rewrite Hd; simpl. rewrite Ht; simpl.
  intros (i & ws & Hi & Hb)%for_each_Raise.
  apply elem_of_seq in Hi. rewrite extract_words_body_word_at in Hb.
  apply bind_Raise in Hb as [Hb|(? & _ & ?)]; [|done].
  exists i. split; [lia|done].
Qed.

(** C9: [extract_words] reads the columns [left], [top], [width],
    [height] and [conf] at every index whose trimmed text is not empty;
    when each of these columns is at least as long as the text column all
    those reads are in bounds and no [IndexError] is raised; a shorter
    column can make the call end in [IndexError]. *)
Theorem extract_words_index_bounds image rotation data texts :
  image_to_data image = Ok data → data !! "text" = Some texts →
  (∀ c col, c ∈ numeric_columns → data !! c = Some col →
     (length texts ≤ length col)%nat) →
  (∀ ws i s c, extract_words image rotation = Ok ws →
     texts !! i = Some (VStr s) → PyStr.strip s ≠ "" → c ∈ numeric_columns →
     ∃ col v, data !! c = Some col ∧ col !! i = Some v) ∧
  (∀ c col i, c ∈ numeric_columns → data !! c = Some col →
     (i < length texts)%nat → is_Some (col !! i)) ∧
  extract_words image rotation ≠ Raise IndexError ∧
  extract_words short_image rotation = Raise IndexError.
Proof.
  intros Hd Ht Hlen. split_and!.
  - intros ws i s c Hws Hi Hs Hc.
    destruct (extract_words_token _ _ _ _ _ _ _ Hd Ht Hws Hi Hs) as (w & _ & Hat).
    apply word_at_Some in Hat
      as (s' & left & top & width & height & cx & cy & conf
          & _ & _ & Hl & Htop & Hwd & Hh & _ & _ & Hc' & _).
    apply bind_Ok in Hl as (? & Hl%cell_Ok & _).
    apply bind_Ok in Htop as (? & Htop%cell_Ok & _).
    apply bind_Ok in Hwd as (? & Hwd%cell_Ok & _).
    apply bind_Ok in Hh as (? & Hh%cell_Ok & _).
    apply bind_Ok in Hc' as (? & Hc'%cell_Ok & _).
    unfold numeric_columns in Hc.
    apply elem_of_cons in Hc as [->|Hc]; [destruct Hl as (col & ? & ?); eauto|].
    apply elem_of_cons in Hc as [->|Hc]; [destruct Htop as (col & ? & ?); eauto|].
    apply elem_of_cons in Hc as [->|Hc]; [destruct Hwd as (col & ? & ?); eauto|].
    apply elem_of_cons in Hc as [->|Hc]; [destruct Hh as (col & ? & ?); eauto|].
    apply elem_of_cons in Hc as [->|Hc]; [destruct Hc' as (col & ? & ?); eauto|].
    by apply elem_of_nil in Hc.
  - intros c col i Hc Hcol Hi. apply lookup_lt_is_Some.
    specialize (Hlen c col Hc Hcol). lia.
  - intros (i & Hi & (c & col & Hc & Hcol & Hle)%word_at_IndexError)
      %(extract_words_Raise _ _ _ _ _ Hd Ht).
    apply elem_of_cons in Hc as [->|Hc].
    + rewrite Ht in Hcol. injection Hcol as <-. lia.
    + specialize (Hlen c col Hc Hcol). lia.
  - reflexivity.
Qed.

(** ** detect_orientation *)

Lemma occurs_lstrip c s :
  PyStr.is_space c = false → occurs c (PyStr.lstrip s) = occurs c s.
Proof.
  intros Hc. induction s as [|d s IH]; simpl; [done|].
  destruct (PyStr.is_space d) eqn:Hd; simpl; [|done].
  rewrite IH. rewrite bool_decide_false; [done|]. intros ->. congruence.
Qed.

Lemma occurs_rstrip c s :
  PyStr.is_space c = false → occurs c (PyStr.rstrip s) = occurs c s.
Proof.
  intros Hc. induction s as [|d s IH]; simpl; [done|].
  destruct (PyStr.is_space d) eqn:Hd; simpl; [|by rewrite IH].
  destruct (PyStr.is_empty (PyStr.rstrip s)) eqn:He; simpl; [|by rewrite IH].
  apply is_empty_true in He. rewrite He in IH. simpl in IH. rewrite <-IH.
  rewrite bool_decide_false; [done|]. intros ->. congruence.
Qed.

Lemma occurs_strip c s :
  PyStr.is_space c = false → occurs c (PyStr.strip s) = occurs c s.
Proof.
  intros Hc. unfold PyStr.strip. by rewrite occurs_rstrip, occurs_lstrip.
Qed.

Lemma digits_occurs c acc b s :
  occurs c s = true → digit_val c = None → c ≠ "_"%char → digits acc b s = None.
Proof.
  intros Hs Hc Hu. revert acc b. induction s as [|d s IH]; intros acc b; [done|].
  simpl in *. destruct (decide (d = c)) as [->|Hd].
  - rewrite Hc. by rewrite bool_decide_false.
  - rewrite bool_decide_false in Hs by done. simpl in Hs.
    destruct (digit_val d); [by apply IH|].
    destruct (_ && _); [by apply IH|done].
Qed.

(** A string with a colon in it is no integer literal. *)
Lemma int_of_str_colon s :
  occurs ":" s = true → int_of_str s = Raise ValueError.
Proof.
  intros Hs. unfold int_of_str.
  rewrite <-(occurs_strip ":" s) in Hs by done.
  destruct (PyStr.strip s) as [|c t]; [done|].
  assert (∀ neg body, occurs ":" body = true →
    match digits 0 false body with
    | Some n => Ok (cond_Zopp neg n)
    | None => Raise ValueError
    end = Raise ValueError) as Hbody.
  { intros neg body Hb. by rewrite (digits_occurs ":") by done. }
  simpl in Hs. destruct (decide (c = ":"%char)) as [->|Hc]; [done|].
  rewrite bool_decide_false in Hs by done. simpl in Hs.
  unfold signed.
  destruct c as [[] [] [] [] [] [] [] []]; try (by apply Hbody);
    apply Hbody; simpl; rewrite Hs; by rewrite orb_true_r.
Qed.

Lemma after_first_colon_occurs s :
  occurs ":" s = true ↔ is_Some (after_first_colon s).
Proof.
  induction s as [|c s IH]; simpl; [split; [done|by intros []]|].
  destruct (bool_decide (c = ":"%char)); simpl; [|done]. split; eauto.
Qed.

Lemma split_nonempty sep s : PyStr.split sep s ≠ [].
Proof. destruct s as [|c s]; simpl; [done|]. by repeat case_match. Qed.

Lemma split_absent sep s : occurs sep s = false → PyStr.split sep s = [s].
Proof.
  induction s as [|c s IH]; simpl; [done|].
  destruct (bool_decide (c = sep)); simpl; [done|]. by intros ->%IH.
Qed.

Lemma split_first_colon s rest :
  after_first_colon s = Some rest →
  ∃ front, PyStr.split ":" s = front :: PyStr.split ":" rest.
Proof.
  revert rest. induction s as [|c s IH]; intros rest; simpl; [done|].
  destruct (bool_decide (c = ":"%char)).
  - intros [= <-]. eauto.
  - intros (front & ->)%IH. eauto.
Qed.

(** What [detect_orientation] does with a line that contains "Rotate" is
    what the specification's wording gives, failures included. *)
Lemma unpack_split_colon line :
  match PyStr.split ":" line with
  | [_; value] => int_of_str (PyStr.strip value)
  | _ => Raise ValueError
  end = rotation_of_line line.
Proof.
  unfold rotation_of_line.
  destruct (after_first_colon line) as [rest|] eqn:Hrest.
  - destruct (split_first_colon _ _ Hrest) as (front & ->).
    destruct (occurs ":" rest) eqn:Hc.
    + rewrite (int_of_str_colon (PyStr.strip rest)) by by rewrite occurs_strip.
      apply after_first_colon_occurs in Hc as [r Hr].
      destruct (split_first_colon _ _ Hr) as (f & ->).
      pose proof (split_nonempty ":" r). by destruct (PyStr.split ":" r).
    + by rewrite split_absent.
  - rewrite split_absent; [done|].
    destruct (occurs ":" line) eqn:Hc; [|done].
    apply after_first_colon_occurs in Hc as [r Hr]. congruence.
Qed.

Lemma detect_orientation_lines_find lines :
  detect_orientation_lines lines =
  match find (PyStr.contains "Rotate") lines with
  | Some line => rotation_of_line line
  | None => Ok 0
  end.
Proof.
  induction lines as [|line rest IH]; simpl; [done|].
  destruct (PyStr.contains "Rotate" line); [apply unpack_split_colon|done].
Qed.

Lemma find_first {A} (f : A → bool) (before after : list A) (x : A) :
  Forall (λ y, f y = false) before → f x = true →
  find f (before ++ x :: after) = Some x.
Proof.
  intros Hb Hx. induction Hb as [|y before Hy _ IH]; simpl; [by rewrite Hx|].
  by rewrite Hy.
Qed.

Lemma find_none {A} (f : A → bool) (l : list A) :
  Forall (λ y, f y = false) l → find f l = None.
Proof. induction 1 as [|y l Hy _ IH]; simpl; [done|]. by rewrite Hy. Qed.

(** C3: [detect_orientation] takes the first line of the block that
    contains "Rotate", splits it on its first colon and returns the
    remainder, stripped, parsed as an integer; without such a line it
    returns 0; the lines after the first matching one play no part. *)
Theorem detect_orientation_first_rotate image osd :
  image_to_osd image = Ok osd →
  detect_orientation image = detect_orientation_spec osd ∧
  (Forall (λ l, PyStr.contains "Rotate" l = false) (PyStr.splitlines osd) →
   detect_orientation image = Ok 0) ∧
  (∀ before line after,
     PyStr.splitlines osd = before ++ line :: after →
     Forall (λ l, PyStr.contains "Rotate" l = false) before →
     PyStr.contains "Rotate" line = true →
     detect_orientation image = rotation_of_line line).
Proof.
  intros Hosd. unfold detect_orientation, detect_orientation_spec.
  rewrite Hosd; simpl. rewrite detect_orientation_lines_find. split_and!.
  - done.
  - intros Hno. by rewrite find_none.
  - intros before line after -> Hb Hl. by rewrite find_first.
Qed.

(** ** Paths and iter_images *)

Global Instance path_le_total : Total path_le.
Proof.
  intros p. induction p as [|x p IH]; intros [|y q]; simpl; auto.
  destruct (decide (x = y)) as [->|Hxy].
  - rewrite decide_True by done. apply IH.
  - rewrite decide_False by done. apply (total String.le).
Qed.

Global Instance path_le_trans : Transitive path_le.
Proof.
  intros p. induction p as [|x p IH]; intros [|y q] [|z r]; simpl; try done.
  destruct (decide (x = y)) as [->|Hxy], (decide (y = z)) as [->|Hyz];
    rewrite ?decide_True by done; try (rewrite decide_False by done); auto.
  - apply IH.
  - intros Hxy' Hyz'. destruct (decide (x = z)) as [->|Hxz].
    + destruct Hxy. by apply (anti_symm String.le).
    + by trans y.
Qed.

Global Instance path_le_anti_symm : AntiSymm (=) path_le.
Proof.
  intros p. induction p as [|x p IH]; intros [|y q]; simpl; try done.
  destruct (decide (x = y)) as [->|Hxy].
  - rewrite decide_True by done. intros ??. f_equal. by apply IH.
  - rewrite decide_False by done. intros ??. destruct Hxy.
    by apply (anti_symm String.le).
Qed.

(** Entries of one directory are ordered by their names. *)
Lemma path_le_siblings folder a b :
  path_le (folder ++ [a]) (folder ++ [b]) ↔ (a ≤ b)%string.
Proof.
  induction folder as [|x folder IH]; simpl.
  - destruct (decide (a = b)) as [->|]; [|done]. split; [done|]. by intros _.
  - by rewrite decide_True.
Qed.

(** [sorted] returns the one ordered arrangement of its argument, so the
    order in which the directory reports its entries does not show. *)
Lemma sorted_spec ps :
  Sorted path_le (sorted ps) ∧ sorted ps ≡ₚ ps ∧
  ∀ qs, Sorted path_le qs → qs ≡ₚ ps → qs = sorted ps.
Proof.
  split_and!.
  - apply (Sorted_merge_sort path_le).
  - apply (merge_sort_Permutation path_le).
  - intros qs Hqs Hperm. apply (Sorted_unique path_le); [done| |].
    + apply (Sorted_merge_sort path_le).
    + unfold sorted. by rewrite (merge_sort_Permutation path_le).
Qed.

Lemma supported_extensions s :
  s ∈ SUPPORTED_EXTENSIONS ↔
  s = ".png" ∨ s = ".jpg" ∨ s = ".jpeg" ∨ s = ".tif" ∨ s = ".tiff" ∨ s = ".bmp".
Proof.
  unfold SUPPORTED_EXTENSIONS. rewrite !elem_of_union, !elem_of_singleton. tauto.
Qed.

Lemma iterdir_Dir w folder entries :
  resolve (root w) folder = Some (Dir entries) →
  iterdir folder w = (Ok ((λ e, folder ++ [e.1]) <$> entries), w).
Proof. intros H. unfold iterdir, gets, mbind, M_bind. by rewrite H. Qed.

(** C4, amended: for an existing directory, [iter_images] returns the
    entries of the directory itself, files and subdirectories alike, whose
    suffix in lower case is one of .png .jpg .jpeg .tif .tiff .bmp, in
    ascending order of their paths; every other entry is left out, and
    nothing below a subdirectory is listed. *)
Theorem iter_images_listing w folder entries :
  resolve (root w) folder = Some (Dir entries) →
  ∃ ps,
    iter_images folder w = (Ok ps, w) ∧
    (∀ p, p ∈ ps ↔
       ∃ name, name ∈ entries.*1 ∧ p = folder ++ [name] ∧
         PyStr.lower (path_suffix p) ∈ SUPPORTED_EXTENSIONS) ∧
    ps ≡ₚ filter supported ((λ e, folder ++ [e.1]) <$> entries) ∧
    Sorted path_le ps ∧
    (∀ qs, Sorted path_le qs → qs ≡ₚ ps → qs = ps).
Proof.
  intros Hdir. exists (sorted (filter supported ((λ e, folder ++ [e.1]) <$> entries))).
  destruct (sorted_spec (filter supported ((λ e, folder ++ [e.1]) <$> entries)))
    as (Hsorted & Hperm & Huniq).
  split_and!.
  - unfold iter_images. unfold mbind at 1, M_bind. by rewrite (iterdir_Dir _ _ _ Hdir).
  - intros p. rewrite Hperm, list_elem_of_filter, list_elem_of_fmap. split.
    + intros (Hp & e & -> & He). exists e.1. split_and!; [|done..].
      apply list_elem_of_fmap. eauto.
    + intros (name & (e & -> & He)%list_elem_of_fmap & -> & Hp). split; [done|eauto].
  - done.
  - done.
  - intros qs Hqs Hq. apply Huniq; [done|]. by rewrite Hq.
Qed.

(** ** The process state *)

Lemma bind_M_unfold {A B} (m : M A) (k : A → M B) (w : world) :
  (m ≫= k) w = match m w with
               | (Ok a, w') => k a w'
               | (Raise e, w') => (Raise e, w')
               end.
Proof. done. Qed.

(** [configure_tesseract] leaves the file system and the output alone. *)
Lemma configure_tesseract_frame cmd w :
  root (configure_tesseract cmd w).2 = root w ∧
  stdout (configure_tesseract cmd w).2 = stdout w.
Proof.
  unfold configure_tesseract, mbind, M_bind, gets, modify, mret, M_ret, raise.
  simpl. repeat case_match; simplify_eq/=; done.
Qed.

Lemma is_dir_root p w w' : root w' = root w → is_dir p w' = ((is_dir p w).1, w').
Proof. unfold is_dir, gets; simpl. by intros ->. Qed.

Lemma main_unfold args w :
  main args w =
  match configure_tesseract (args_tesseract_cmd args) w with
  | (Ok _, w1) =>
      let img_dir := Path (args_img_dir args) in
      match is_dir img_dir w1 with
      | (Ok true, w2) =>
          (paths ← iter_images img_dir;
           images ← for_each_M main_body paths [];
           write_text (Path (args_output args)) (VDict [("images", VList images)]);;
           print ("Wrote OCR results to " +:+ path_str (Path (args_output args)))) w2
      | (Ok false, w2) =>
          (Raise (SystemExit ("Image directory not found: " +:+ path_str img_dir)), w2)
      | (Raise e, w2) => (Raise e, w2)
      end
  | (Raise e, w1) => (Raise e, w1)
  end.
Proof.
  unfold main. rewrite bind_M_unfold.
  destruct (configure_tesseract _ w) as [[[]|e] w1]; [|done].
  rewrite bind_M_unfold. by destruct (is_dir _ w1) as [[[]|e] w2].
Qed.

(** C6: when the image directory is missing, or is no directory, [main]
    ends with an exception, hence with a non-zero exit status; unless the
    engine check has already failed, the exception is [SystemExit] with a
    message that names the directory; the file system is left as it was
    and nothing is printed. *)
Theorem main_missing_directory args w :
  is_dir (Path (args_img_dir args)) w = (Ok false, w) →
  ∃ e w',
    main args w = (Raise e, w') ∧
    exit_status (Raise e) ≠ 0 ∧
    root w' = root w ∧ stdout w' = stdout w ∧
    match configure_tesseract (args_tesseract_cmd args) w with
    | (Ok _, _) =>
        e = SystemExit ("Image directory not found: "
                        +:+ path_str (Path (args_img_dir args)))
    | (Raise e', _) => e = e'
    end.
Proof.
  intros Hdir. rewrite main_unfold.
  destruct (configure_tesseract_frame (args_tesseract_cmd args) w) as [Hroot Hout].
  destruct (configure_tesseract _ w) as [[[]|e] w1]; simpl in Hroot, Hout; cbv zeta.
  - rewrite (is_dir_root _ w w1 Hroot), Hdir. simpl. by eexists _, w1.
  - by exists e, w1.
Qed.

(** ** main *)

Lemma main_body_Ok images image_path w images' w' :
  main_body images image_path w = (Ok images', w') ↔
  w' = w ∧ ∃ image rotation words,
    resolve (root w) image_path = Some (File (ImageFile image)) ∧
    detect_orientation image = Ok rotation ∧
    extract_words image rotation = Ok words ∧
    images' = images ++ [image_entry image_path rotation words].
Proof.
  unfold main_body, Image_open, mbind, M_bind, gets, lift, mret, M_ret, raise.
  simpl. split.
  - destruct (resolve (root w) image_path) as [[[image| |]|]|]; try done.
    destruct (detect_orientation image) as [rotation|] eqn:Hrot; [|done].
    destruct (extract_words image rotation) as [words|] eqn:Hws; [|done].
    intros [= <- <-]. split; [done|]. by exists image, rotation, words.
  - intros (-> & image & rotation & words & -> & -> & -> & ->). done.
Qed.

Lemma main_body_frame images image_path w : (main_body images image_path w).2 = w.
Proof.
  unfold main_body, Image_open, mbind, M_bind, gets, lift, mret, M_ret, raise.
  simpl. by repeat case_match; simplify_eq/=.
Qed.

Lemma extract_words_rotation image rotation ws :
  extract_words image rotation = Ok ws →
  Forall (λ w, field "rotation" w = Some (VInt rotation)) ws.
Proof.
  intros Hws. pose proof Hws as (data & texts & Hd & Ht & _)%extract_words_Ok.
  destruct (extract_words_no_blank _ _ _ _ _ Hd Ht Hws) as (Hfrom & _).
  apply Forall_forall. intros w (i & s & _ & _ & Hat & _)%Hfrom.
  by apply word_at_Some in Hat
    as (? & ? & ? & ? & ? & ? & ? & ? & _ & _ & _ & _ & _ & _ & _ & _ & _ & ->).
Qed.

(** C5, amended: the rotation stored in the entry of an image, and in
    each of its word records, is the integer [detect_orientation] returns
    for the image, that is the integer on the first "Rotate" line of the
    engine's block, or 0; [main] stores it without comparing it with 0,
    90, 180 and 270. *)
Theorem main_body_rotation images image_path w images' w' :
  main_body images image_path w = (Ok images', w') →
  ∃ image rotation words,
    resolve (root w) image_path = Some (File (ImageFile image)) ∧
    detect_orientation image = Ok rotation ∧
    images' = images ++ [image_entry image_path rotation words] ∧
    field "rotation" (image_entry image_path rotation words) = Some (VInt rotation) ∧
    Forall (λ word, field "rotation" word = Some (VInt rotation)) words ∧
    (∀ osd, image_to_osd image = Ok osd → detect_orientation_spec osd = Ok rotation).
Proof.
  intros (-> & image & rotation & words & Hres & Hrot & Hws & ->)%main_body_Ok.
  exists image, rotation, words. split_and!; [done..| |].
  - by apply (extract_words_rotation image).
  - intros osd Hosd.
    destruct (detect_orientation_first_rotate _ _ Hosd) as (<- & _). done.
Qed.


Lemma lookup_store_entry name x entries :
  lookup_entry name (store_entry name x entries) = Some x.
Proof.
  induction entries as [|[n y] entries IH]; simpl.
  - by rewrite bool_decide_true.
  - destruct (decide (n = name)) as [->|Hn].
    + rewrite bool_decide_true by done. simpl. by rewrite bool_decide_true.
    + rewrite bool_decide_false by done. simpl. by rewrite bool_decide_false.
Qed.

(** After a successful write the file holds the document. *)
Lemma store_resolve tree p doc tree' :
  store tree p doc = Ok tree' → resolve tree' p = Some (File (TextFile doc)).
Proof.
  revert tree tree'. induction p as [|name p IH]; intros tree tree'; simpl.
  - destruct tree; [|done]. by intros [= <-].
  - destruct tree as [|entries]; [done|].
    destruct (lookup_entry name entries) as [x|] eqn:Hx.
    + intros (x' & Hx' & [= <-])%bind_Ok. simpl.
      rewrite lookup_store_entry. simpl. by eapply IH.
    + destruct p; [|done]. intros [= <-]. simpl. by rewrite lookup_store_entry.
Qed.

Lemma main_body_root images image_path w w1 :
  root w1 = root w →
  main_body images image_path w1 = ((main_body images image_path w).1, w1).
Proof.
  intros Hroot. unfold main_body, Image_open, mbind, M_bind, gets, lift, mret, M_ret, raise.
  simpl. rewrite Hroot.
  destruct (resolve (root w) image_path) as [[[image| |]|]|]; try done.
  destruct (detect_orientation image) as [rotation|]; [|done].
  by destruct (extract_words image rotation).
Qed.

Lemma iter_images_root folder w w1 :
  root w1 = root w → iter_images folder w1 = ((iter_images folder w).1, w1).
Proof.
  intros Hroot. unfold iter_images, iterdir, mbind, M_bind, gets, mret, M_ret, raise.
  simpl. rewrite Hroot. by destruct (resolve (root w) folder) as [[|]|].
Qed.

(** The loop of [main] appends one entry for each path, in order. *)
Lemma for_each_main_body paths acc w images w' :
  for_each_M main_body paths acc w = (Ok images, w') →
  w' = w ∧ ∃ entries, images = acc ++ entries ∧
    Forall2 (λ p e, main_body [] p w = (Ok [e], w)) paths entries.
Proof.
  revert acc. induction paths as [|p paths IH]; intros acc; simpl.
  - intros [= <- <-]. split; [done|]. exists []. by rewrite app_nil_r.
  - rewrite bind_M_unfold.
    destruct (main_body acc p w) as [[acc'|e] w1] eqn:Hb; [|done].
    apply main_body_Ok in Hb as (-> & image & rotation & words & ? & ? & ? & ->).
    intros (-> & entries & -> & Hall)%IH. split; [done|].
    exists (image_entry p rotation words :: entries). split; [by rewrite <-app_assoc|].
    constructor; [|done]. apply main_body_Ok. split; [done|].
    by exists image, rotation, words.
Qed.



Lemma iter_images_none w folder entries :
  resolve (root w) folder = Some (Dir entries) →
  Forall (λ e, ¬ supported (folder ++ [e.1])) entries →
  iter_images folder w = (Ok [], w).
Proof.
  intros Hdir Hnone. unfold iter_images.
  rewrite bind_M_unfold, (iterdir_Dir _ _ _ Hdir).
  assert (filter supported ((λ e, folder ++ [e.1]) <$> entries) = []) as ->;
    [|reflexivity].
  clear Hdir. induction Hnone as [|e entries He _ IH]; [done|].
  rewrite fmap_cons. by rewrite filter_cons_False.
Qed.

(** C10, amended: when the engine is available, the image directory exists
    and holds no entry with a supported extension, and the output path can
    be written, [main] returns normally, hence with exit status 0, has
    written the report [{"images": []}] to the output path, and has
    printed the message that names that path. *)
Theorem main_empty_directory args w w1 entries tree' :
  configure_tesseract (args_tesseract_cmd args) w = (Ok (), w1) →
  resolve (root w) (Path (args_img_dir args)) = Some (Dir entries) →
  Forall (λ e, ¬ supported (Path (args_img_dir args) ++ [e.1])) entries →
  store (root w) (Path (args_output args)) empty_report = Ok tree' →
  ∃ w',
    main args w = (Ok (), w') ∧
    exit_status (main args w).1 = 0 ∧
    root w' = tree' ∧
    resolve (root w') (Path (args_output args)) = Some (File (TextFile empty_report)) ∧
    stdout w' = stdout w ++
      ["Wrote OCR results to " +:+ path_str (Path (args_output args))].
Proof.
  intros Hconf Hdir Hnone Hstore.
  destruct (configure_tesseract_frame (args_tesseract_cmd args) w) as [Hroot Hout].
  rewrite Hconf in Hroot, Hout. simpl in Hroot, Hout.
  assert (main args w =
    (Ok (), add_stdout ("Wrote OCR results to " +:+ path_str (Path (args_output args)))
              (set_root tree' w1))) as Hmain.
  { rewrite main_unfold, Hconf. cbv zeta.
    rewrite (is_dir_root _ w w1 Hroot). unfold is_dir at 1, gets. simpl.
    rewrite Hdir. rewrite bind_M_unfold.
    rewrite (iter_images_none w1 _ entries); [|by rewrite Hroot|done].
    simpl. unfold write_text, mbind, M_bind, gets, lift, modify, print. simpl.
    rewrite Hroot. fold empty_report. by rewrite Hstore. }
  eexists. split; [exact Hmain|]. rewrite Hmain. simpl. split_and!; [done..| |].
  - by eapply store_resolve.
  - by rewrite Hout.
Qed.

(** ** The specification's scenarios, evaluated *)

Example detect_orientation_rotate_90 :
  detect_orientation (make_image "Rotate: 90" ∅) = Ok 90.
Proof. reflexivity. Qed.

Example detect_orientation_no_rotate :
  detect_orientation (make_image "Orientation in degrees: 0" ∅) = Ok 0.
Proof. reflexivity. Qed.

Example detect_orientation_two_colons :
  detect_orientation (make_image "Rotate: 90: 180" ∅) = Raise ValueError.
Proof. reflexivity. Qed.

Example iter_images_example :
  iter_images ["img"] listing_world
  = (Ok [["img"; "a.PNG"]; ["img"; "b.jpg"]; ["img"; "d.tiff"]], listing_world).
Proof. vm_compute. reflexivity. Qed.

Example extract_words_hello : extract_words hello_image 0 = Ok [hello_record].
Proof. vm_compute. reflexivity. Qed.

Example main_hello :
  let '(r, w) := main default_args hello_world in
  r = Ok () ∧
  resolve (root w) ["ocr_output.json"]
  = Some (File (TextFile
      (VDict [("images", VList [image_entry ["img"; "hello.png"] 0 [hello_record]])]))) ∧
  stdout w = ["Wrote OCR results to ocr_output.json"].
Proof. vm_compute. done. Qed.

Example center_hello : float_is (normalize 35 0) (2 * 10 + 50) (-1).
Proof. vm_compute. reflexivity. Qed.

Example confidence_minus_one :
  float_of_int (-1) = Ok (S754_finite true 4503599627370496 (-52)).
Proof. reflexivity. Qed.

(** ** Instances of the theorems *)

Lemma extract_words_position_witness :
  image_to_data hello_image = Ok hello_table ∧
  hello_table !! "text" = Some hello_texts ∧
  extract_words hello_image 0 = Ok [hello_record] ∧
  hello_texts !! 0%nat = Some (VStr "Hello") ∧
  PyStr.strip "Hello" ≠ "" ∧
  ∃ w left top width height center_x center_y,
    [hello_record] !! rank hello_texts 0 = Some w ∧
    cell hello_table "left" 0 ≫= py_int = Ok left ∧
    cell hello_table "top" 0 ≫= py_int = Ok top ∧
    cell hello_table "width" 0 ≫= py_int = Ok width ∧
    cell hello_table "height" 0 ≫= py_int = Ok height ∧
    int_truediv width 2 ≫= int_add_float left = Ok center_x ∧
    int_truediv height 2 ≫= int_add_float top = Ok center_y ∧
    position "left" w = Some (VInt left) ∧
    position "top" w = Some (VInt top) ∧
    position "right" w = Some (VInt (left + width)) ∧
    position "bottom" w = Some (VInt (top + height)) ∧
    position "center_x" w = Some (VFloat center_x) ∧
    position "center_y" w = Some (VFloat center_y) ∧
    (Z.abs left < 2 ^ 53 → Z.abs width < 2 ^ 53 →
     Z.abs (2 * left + width) < 2 ^ 53 →
     float_is center_x (2 * left + width) (-1)) ∧
    (Z.abs top < 2 ^ 53 → Z.abs height < 2 ^ 53 →
     Z.abs (2 * top + height) < 2 ^ 53 →
     float_is center_y (2 * top + height) (-1)).
Proof.
  split_and!; [reflexivity|reflexivity|vm_compute; reflexivity|reflexivity
              |vm_compute; discriminate|].
  apply (extract_words_position hello_image 0 hello_table hello_texts
           [hello_record] 0 "Hello");
    [reflexivity|reflexivity|vm_compute; reflexivity|reflexivity
    |vm_compute; discriminate].
Defined.

Lemma extract_words_no_blank_witness :
  image_to_data hello_image = Ok hello_table ∧
  hello_table !! "text" = Some hello_texts ∧
  extract_words hello_image 0 = Ok [hello_record] ∧
  (length [hello_record] ≤ length hello_texts)%nat.
Proof.
  split_and!; [reflexivity|reflexivity|vm_compute; reflexivity|].
  apply (extract_words_no_blank hello_image 0 hello_table hello_texts [hello_record]);
    [reflexivity|reflexivity|vm_compute; reflexivity].
Defined.

Lemma extract_words_confidence_witness :
  image_to_data hello_image = Ok hello_table ∧
  hello_table !! "text" = Some hello_texts ∧
  extract_words hello_image 0 = Ok [hello_record] ∧
  hello_texts !! 0%nat = Some (VStr "Hello") ∧
  PyStr.strip "Hello" ≠ "" ∧
  ∃ w conf,
    [hello_record] !! rank hello_texts 0 = Some w ∧
    cell hello_table "conf" 0 ≫= py_float = Ok conf ∧
    field "confidence" w = Some (VFloat conf) ∧
    (∀ f, cell hello_table "conf" 0 = Ok (VFloat f) → conf = f) ∧
    (∀ z, cell hello_table "conf" 0 = Ok (VInt z) → float_of_int z = Ok conf).
Proof.
  split_and!; [reflexivity|reflexivity|vm_compute; reflexivity|reflexivity
              |vm_compute; discriminate|].
  apply (extract_words_confidence hello_image 0 hello_table hello_texts
           [hello_record] 0 "Hello");
    [reflexivity|reflexivity|vm_compute; reflexivity|reflexivity
    |vm_compute; discriminate].
Defined.

Lemma extract_words_index_bounds_witness :
  image_to_data hello_image = Ok hello_table ∧
  hello_table !! "text" = Some hello_texts ∧
  (∀ c col, c ∈ numeric_columns → hello_table !! c = Some col →
     (length hello_texts ≤ length col)%nat) ∧
  extract_words hello_image 0 ≠ Raise IndexError.
Proof.
  assert (∀ c col, c ∈ numeric_columns → hello_table !! c = Some col →
            (length hello_texts ≤ length col)%nat) as Hlen.
  { intros c col Hc. unfold numeric_columns in Hc.
    repeat (apply elem_of_cons in Hc as [->|Hc];
            [vm_compute; intros [= <-]; simpl; lia|]).
    by apply elem_of_nil in Hc. }
  split_and!; [reflexivity|reflexivity|exact Hlen|].
  apply (extract_words_index_bounds hello_image 0 hello_table hello_texts);
    [reflexivity|reflexivity|exact Hlen].
Defined.

Lemma detect_orientation_first_rotate_witness :
  image_to_osd hello_image = Ok "Orientation: 0
Rotate: 0
" ∧
  detect_orientation hello_image = rotation_of_line "Rotate: 0" ∧
  detect_orientation hello_image = Ok 0.
Proof.
  split_and!; [reflexivity| |reflexivity].
  apply (proj2 (proj2 (detect_orientation_first_rotate hello_image _ eq_refl))
           ["Orientation: 0"] "Rotate: 0" []);
    [reflexivity|by repeat constructor|reflexivity].
Defined.

Lemma iter_images_listing_witness :
  resolve (root listing_world) ["img"]
  = Some (Dir [("d.tiff", File OtherFile); ("c.txt", File OtherFile);
               ("b.jpg", File OtherFile); ("a.PNG", File OtherFile)]) ∧
  ∃ ps, iter_images ["img"] listing_world = (Ok ps, listing_world) ∧ Sorted path_le ps.
Proof.
  split; [reflexivity|].
  destruct (iter_images_listing listing_world ["img"] _ eq_refl)
    as (ps & Hps & _ & _ & Hsorted & _).
  by exists ps.
Defined.

Lemma main_body_rotation_witness :
  main_body [] ["img"; "hello.png"] hello_world
  = (Ok [image_entry ["img"; "hello.png"] 0 [hello_record]], hello_world) ∧
  ∃ image rotation words,
    resolve (root hello_world) ["img"; "hello.png"] = Some (File (ImageFile image)) ∧
    detect_orientation image = Ok rotation ∧
    [image_entry ["img"; "hello.png"] 0 [hello_record]]
    = [] ++ [image_entry ["img"; "hello.png"] rotation words].
Proof.
  assert (main_body [] ["img"; "hello.png"] hello_world
          = (Ok [image_entry ["img"; "hello.png"] 0 [hello_record]], hello_world))
    as Hrun by (vm_compute; reflexivity).
  split; [exact Hrun|].
  destruct (main_body_rotation _ _ _ _ _ Hrun)
    as (image & rotation & words & ? & ? & ? & _).
  by exists image, rotation, words.
Defined.

Lemma main_missing_directory_witness :
  is_dir (Path (args_img_dir default_args)) no_dir_world = (Ok false, no_dir_world) ∧
  ∃ e w',
    main default_args no_dir_world = (Raise e, w') ∧
    exit_status (Raise e) ≠ 0 ∧
    root w' = root no_dir_world ∧ stdout w' = stdout no_dir_world.
Proof.
  split; [reflexivity|].
  destruct (main_missing_directory default_args no_dir_world eq_refl)
    as (e & w' & ? & ? & ? & ? & _).
  by exists e, w'.
Defined.


Lemma main_empty_directory_witness :
  configure_tesseract (args_tesseract_cmd default_args) empty_dir_world
  = (Ok (), empty_dir_world) ∧
  resolve (root empty_dir_world) (Path (args_img_dir default_args)) = Some (Dir []) ∧
  ∃ w',
    main default_args empty_dir_world = (Ok (), w') ∧
    resolve (root w') (Path (args_output default_args))
    = Some (File (TextFile empty_report)) ∧
    stdout w' = ["Wrote OCR results to ocr_output.json"].
Proof.
  split_and!; [reflexivity|reflexivity|].
  destruct (main_empty_directory default_args empty_dir_world empty_dir_world []
              (Dir [("img", Dir []); ("ocr_output.json", File (TextFile empty_report))])
              eq_refl eq_refl (Forall_nil_2 _) eq_refl)
    as (w' & ? & _ & _ & ? & ?).
  by exists w'.
Defined.

(** ** Where the specification's wording and the program differ *)

(** A subdirectory whose name ends in a supported extension is listed. *)
Lemma iter_images_lists_subdirectory :
  iter_images ["img"] subdir_world = (Ok [["img"; "scans.png"]], subdir_world) ∧
  resolve (root subdir_world) ["img"; "scans.png"]
  = Some (Dir [("page1.txt", File OtherFile)]).
Proof. split; vm_compute; reflexivity. Qed.

(** A rotation of 45 degrees reported by the engine is stored as it is. *)
Lemma main_stores_rotation_45 :
  detect_orientation tilted_image = Ok 45 ∧
  ¬ (45 ∈ [0; 90; 180; 270]) ∧
  ∃ words,
    main_body [] ["img"; "a.png"] tilted_world
    = (Ok [image_entry ["img"; "a.png"] 45 words], tilted_world) ∧
    Forall (λ word, field "rotation" word = Some (VInt 45)) words ∧
    words ≠ [].
Proof.
  split_and!; [reflexivity| |].
  - intros Hin. repeat (apply elem_of_cons in Hin as [Hin|Hin]; [discriminate|]).
    by apply elem_of_nil in Hin.
  - exists [word_record "Hello" 45 10 10 50 20
              (normalize 35 0) (normalize 20 0) (normalize 95 0)].
    split_and!; [vm_compute; reflexivity|by repeat constructor|discriminate].
Qed.

(** With an image directory that has no images but no engine installed,
    [main] ends with [SystemExit] and writes no report. *)
Lemma main_empty_directory_no_engine :
  resolve (root no_engine_world) (Path (args_img_dir default_args)) = Some (Dir []) ∧
  ∃ msg,
    main default_args no_engine_world = (Raise (SystemExit msg), no_engine_world) ∧
    exit_status (main default_args no_engine_world).1 = 1 ∧
    resolve (root no_engine_world) (Path (args_output default_args)) = None.
Proof.
  split; [reflexivity|]. eexists. split_and!; vm_compute; reflexivity.
Qed.

(** * Further properties *)

(** ** Strings and integer literals *)

Lemma lstrip_head s :
  match PyStr.lstrip s with
  | EmptyString => True
  | String c _ => PyStr.is_space c = false
  end.
Proof.
  induction s as [|c s IH]; simpl; [done|].
  destruct (PyStr.is_space c) eqn:Hc; [done|]. by simpl.
Qed.

Lemma lstrip_fixed s :
  match s with EmptyString => True | String c _ => PyStr.is_space c = false end →
  PyStr.lstrip s = s.
Proof. destruct s as [|c s]; simpl; [done|]. by intros ->. Qed.

Lemma rstrip_head s :
  match s with EmptyString => True | String c _ => PyStr.is_space c = false end →
  match PyStr.rstrip s with
  | EmptyString => True
  | String c _ => PyStr.is_space c = false
  end.
Proof. destruct s as [|c s]; simpl; [done|]. intros Hc. by rewrite Hc. Qed.

Lemma rstrip_idemp s : PyStr.rstrip (PyStr.rstrip s) = PyStr.rstrip s.
Proof.
  induction s as [|c s IH]; simpl; [done|].
  destruct (PyStr.is_space c && PyStr.is_empty (PyStr.rstrip s)) eqn:Hc; [done|].
  simpl. by rewrite IH, Hc.
Qed.

(** Trimming a trimmed string changes nothing. *)
Lemma strip_idemp s : PyStr.strip (PyStr.strip s) = PyStr.strip s.
Proof.
  unfold PyStr.strip.
  rewrite (lstrip_fixed (PyStr.rstrip (PyStr.lstrip s)))
    by apply rstrip_head, lstrip_head.
  apply rstrip_idemp.
Qed.







Lemma occurs_app c a b : occurs c (a +:+ b) = occurs c a || occurs c b.
Proof. induction a as [|d a IH]; simpl; [done|]. by rewrite IH, orb_assoc. Qed.

Lemma occurs_all_space c p :
  PyStr.is_space c = false → PyStr.all_space p = true → occurs c p = false.
Proof.
  intros Hc. induction p as [|d p IH]; simpl; [done|].
  intros [Hd Hp]%andb_prop. rewrite IH by done.
  rewrite bool_decide_false; [done|]. intros ->. congruence.
Qed.



(** *** Decimal digits *)








(** ** configure_tesseract *)

Lemma configure_tesseract_state cmd w :
  let w' := (configure_tesseract cmd w).2 in
  tesseract_cmd w' = resolved_command cmd w ∧
  environ w' = environ w ∧ root w' = root w ∧ stdout w' = stdout w ∧
  which w' = which w ∧ tesseract_version w' = tesseract_version w.
Proof.
  unfold configure_tesseract, resolved_command, mbind, M_bind, gets, modify,
    mret, M_ret, raise, truthy.
  simpl. destruct cmd as [[|c s]|]; simpl;
    destruct (environ w !! "TESSERACT_CMD") as [[|c' s']|]; simpl;
    repeat case_match; simplify_eq/=; done.
Qed.

(** The outcome of [configure_tesseract] as a function of the resolved
    command. *)
Lemma configure_tesseract_result cmd w :
  let c := resolved_command cmd w in
  (configure_tesseract cmd w).1 =
  if which w c then
    match tesseract_version w c with
    | Ok _ => Ok ()
    | Raise TesseractNotFoundError =>
        Raise (SystemExit
          ("Tesseract is not available. Install it or provide the path via "
           +:+ "--tesseract-cmd or the TESSERACT_CMD environment variable."))
    | Raise e => Raise e
    end
  else
    Raise (SystemExit
      ("Tesseract executable not found. Install tesseract or provide the path via "
       +:+ "--tesseract-cmd or the TESSERACT_CMD environment variable.")).
Proof.
  unfold configure_tesseract, resolved_command, mbind, M_bind, gets, modify,
    mret, M_ret, raise, truthy.
  simpl. destruct cmd as [[|c s]|]; simpl;
    destruct (environ w !! "TESSERACT_CMD") as [[|c' s']|]; simpl;
    repeat case_match; simplify_eq/=; done.
Qed.

(** X1: The command is taken from the argument, then from the environment,
    then from the previous configuration; it is stored whatever the
    outcome, and nothing else of the process state changes. *)
Theorem configure_tesseract_command cmd w :
  let w' := (configure_tesseract cmd w).2 in
  tesseract_cmd w' = resolved_command cmd w ∧
  environ w' = environ w ∧ root w' = root w ∧ stdout w' = stdout w ∧
  which w' = which w ∧ tesseract_version w' = tesseract_version w.
Proof. apply configure_tesseract_state. Qed.

(** X2: [configure_tesseract] returns normally exactly when the resolved
    command is on the search path and the version probe succeeds; when the
    command is not on the search path it exits without running the probe,
    and when the probe reports that the engine is not found it exits as
    well; any other failure of the probe is passed on as it is. *)
Theorem configure_tesseract_succeeds cmd w :
  let c := resolved_command cmd w in
  ((configure_tesseract cmd w).1 = Ok () ↔
   which w c = true ∧ ∃ v, tesseract_version w c = Ok v) ∧
  (which w c = false →
   (configure_tesseract cmd w).1
   = Raise (SystemExit
       ("Tesseract executable not found. Install tesseract or provide the path via "
        +:+ "--tesseract-cmd or the TESSERACT_CMD environment variable."))) ∧
  (which w c = true → tesseract_version w c = Raise TesseractNotFoundError →
   (configure_tesseract cmd w).1
   = Raise (SystemExit
       ("Tesseract is not available. Install it or provide the path via "
        +:+ "--tesseract-cmd or the TESSERACT_CMD environment variable."))) ∧
  (∀ e, which w c = true → tesseract_version w c = Raise e →
     e ≠ TesseractNotFoundError →
     (configure_tesseract cmd w).1 = Raise e).
Proof.
  intros c. pose proof (configure_tesseract_result cmd w) as Hres.
  cbv zeta in Hres. fold c in Hres. rewrite Hres. split_and!.
  - split.
    + destruct (which w c); [|done].
      destruct (tesseract_version w c) as [v|[]]; try done. eauto.
    + intros (-> & v & ->). done.
  - by intros ->.
  - by intros -> ->.
  - intros e -> -> He. by destruct e.
Qed.

Lemma resolved_command_stable cmd w w' :
  environ w' = environ w → tesseract_cmd w' = resolved_command cmd w →
  resolved_command cmd w' = resolved_command cmd w.
Proof.
  intros He Hc. unfold resolved_command in *. rewrite He in *.
  destruct cmd as [[|c s]|]; simpl in *;
    destruct (environ w !! "TESSERACT_CMD") as [[|c' s']|]; simpl in *; done.
Qed.

(** X3: Running [configure_tesseract] again with the same argument changes
    nothing: the second run ends as the first did, in the same state. *)
Theorem configure_tesseract_twice cmd w :
  (configure_tesseract cmd ≫= λ _, configure_tesseract cmd) w
  = configure_tesseract cmd w.
Proof.
  rewrite bind_M_unfold.
  destruct (configure_tesseract cmd w) as [[[]|e] w1] eqn:Hrun; [|done].
  pose proof (configure_tesseract_state cmd w) as (Hc & He & Hr & Ho & Hw & Hv).
  pose proof (configure_tesseract_result cmd w) as Hout.
  rewrite Hrun in Hc, He, Hr, Ho, Hw, Hv, Hout. simpl in *.
  pose proof (configure_tesseract_state cmd w1) as (Hc1 & He1 & Hr1 & Ho1 & Hw1 & Hv1).
  pose proof (configure_tesseract_result cmd w1) as Hout1. simpl in *.
  rewrite (resolved_command_stable cmd w w1 He Hc) in Hc1, Hout1.
  rewrite Hw, Hv, <-Hout in Hout1.
  destruct (configure_tesseract cmd w1) as [r2 w2]. simpl in *. subst r2. f_equal.
  destruct w1, w2; simpl in *; congruence.
Qed.

(** ** detect_orientation *)

Lemma int_of_str_strip s : int_of_str (PyStr.strip s) = int_of_str s.
Proof. unfold int_of_str. by rewrite strip_idemp. Qed.

Lemma detect_orientation_first image osd before line after :
  image_to_osd image = Ok osd →
  PyStr.splitlines osd = before ++ line :: after →
  Forall (λ l, PyStr.contains "Rotate" l = false) before →
  PyStr.contains "Rotate" line = true →
  detect_orientation image = rotation_of_line line.
Proof.
  intros Hosd Hlines Hb Hl. unfold detect_orientation. rewrite Hosd; simpl.
  rewrite detect_orientation_lines_find, Hlines. by rewrite find_first.
Qed.

(** X4: A failure of the engine's orientation call is passed on; when the
    first line with "Rotate" has no colon, or has a second colon after the
    first, or its remainder is no integer literal, [detect_orientation]
    raises [ValueError], whatever the lines after it say. *)
Theorem detect_orientation_errors image :
  (∀ e, image_to_osd image = Raise e → detect_orientation image = Raise e) ∧
  (∀ osd before line after,
     image_to_osd image = Ok osd →
     PyStr.splitlines osd = before ++ line :: after →
     Forall (λ l, PyStr.contains "Rotate" l = false) before →
     PyStr.contains "Rotate" line = true →
     (occurs ":" line = false ∨
      (∃ rest, after_first_colon line = Some rest ∧
         (occurs ":" rest = true ∨ int_of_str rest = Raise ValueError))) →
     detect_orientation image = Raise ValueError).
Proof.
  split.
  - intros e He. unfold detect_orientation. by rewrite He.
  - intros osd before line after Hosd Hlines Hb Hl Hbad.
    rewrite (detect_orientation_first _ _ before line after Hosd Hlines Hb Hl).
    unfold rotation_of_line.
    destruct Hbad as [Hno|(rest & -> & [Hc|Hint])].
    + destruct (after_first_colon line) as [rest|] eqn:Hrest; [|done].
      assert (occurs ":" line = true) as Hyes
        by (apply after_first_colon_occurs; eauto).
      congruence.
    + apply int_of_str_colon. by rewrite occurs_strip.
    + by rewrite int_of_str_strip.
Qed.


Lemma detect_orientation_errors_witness :
  image_to_osd (make_image "Rotate 90" ∅) = Ok "Rotate 90" ∧
  detect_orientation (make_image "Rotate 90" ∅) = Raise ValueError.
Proof.
  split; [reflexivity|].
  apply (proj2 (detect_orientation_errors (make_image "Rotate 90" ∅))
           "Rotate 90" [] "Rotate 90" []);
    [reflexivity|reflexivity|constructor|reflexivity|left; reflexivity].
Defined.


(** ** extract_words *)

Lemma words_upto_Forall2 data rotation texts n ws :
  data !! "text" = Some texts →
  words_upto data rotation n = Ok ws →
  Forall2 (λ i w, word_at data rotation i = Ok (Some w))
    (filter (λ i, from_option nonblank false (texts !! i) = true) (seq 0 n)) ws.
Proof.
  intros Ht. revert ws. induction n as [|n IH]; intros ws'.
  - intros [= <-]. constructor.
  - rewrite words_upto_S. intros (ws & Hws & Hb)%bind_Ok.
    rewrite extract_words_body_word_at in Hb.
    apply bind_Ok in Hb as (o & Ho & [= <-]).
    rewrite seq_S, filter_app. apply Forall2_app; [by apply IH|]. simpl.
    destruct (word_at_Ok_text _ _ _ _ Ho) as (s & Hs & Hnb).
    rewrite (cell_text _ _ _ Ht) in Hs. unfold index in Hs.
    destruct (texts !! n) as [v|] eqn:Hn; [|done]. injection Hs as ->.
    rewrite filter_cons, filter_nil.
    assert (from_option nonblank false (texts !! n) = bool_decide (is_Some o)) as Hdec
      by (by rewrite Hn).
    destruct o as [w|]; simpl.
    + rewrite decide_True; [by repeat constructor|].
      rewrite Hdec. apply bool_decide_eq_true. eauto.
    + rewrite decide_False; [constructor|].
      rewrite Hdec. intros [? ?]%bool_decide_eq_true. done.
Qed.

Lemma token_indices_elem texts i :
  i ∈ token_indices texts ↔ ∃ v, texts !! i = Some v ∧ nonblank v = true.
Proof.
  unfold token_indices. rewrite list_elem_of_filter, elem_of_seq. split.
  - intros [Hi _]. destruct (texts !! i) as [v|]; [eauto|done].
  - intros (v & Hv & Hnb). rewrite Hv. split; [done|].
    apply lookup_lt_Some in Hv. lia.
Qed.

Lemma token_indices_sorted texts : StronglySorted lt (token_indices texts).
Proof.
  unfold token_indices. generalize 0%nat.
  induction (length texts) as [|n IH]; intros a; simpl; [constructor|].
  rewrite filter_cons. case_decide.
  - constructor; [apply IH|]. apply Forall_forall.
    intros j [_ Hj%elem_of_seq]%list_elem_of_filter. lia.
  - apply IH.
Qed.

(** X6: The records are those of the non-blank tokens in the order of the
    table: the k-th record is built from the k-th non-blank token. *)
Theorem extract_words_order image rotation data texts ws :
  image_to_data image = Ok data → data !! "text" = Some texts →
  extract_words image rotation = Ok ws →
  Forall2 (λ i w, word_at data rotation i = Ok (Some w)) (token_indices texts) ws ∧
  StronglySorted lt (token_indices texts) ∧
  (∀ i, i ∈ token_indices texts ↔ ∃ v, texts !! i = Some v ∧ nonblank v = true).
Proof.
  intros Hd Ht (data' & texts' & Hd' & Ht' & Hws)%extract_words_Ok.
  rewrite Hd in Hd'. injection Hd' as <-. rewrite Ht in Ht'. injection Ht' as <-.
  split_and!.
  - by apply words_upto_Forall2.
  - apply token_indices_sorted.
  - apply token_indices_elem.
Qed.

Lemma extract_words_records image rotation ws w :
  extract_words image rotation = Ok ws → w ∈ ws →
  ∃ s left top width height cx cy conf,
    PyStr.all_space s = false ∧
    w = word_record (PyStr.strip s) rotation left top width height cx cy conf.
Proof.
  intros Hws Hw. pose proof Hws as (data & texts & Hd & Ht & Hup)%extract_words_Ok.
  destruct (words_upto_inv _ _ _ _ _ Ht Hup) as (_ & _ & _ & Hfrom).
  destruct (Hfrom w Hw) as (i & _ & Hat).
  apply word_at_Some in Hat
    as (s & left & top & width & height & cx & cy & conf
        & _ & Hb & _ & _ & _ & _ & _ & _ & _ & ->).
  by exists s, left, top, width, height, cx, cy, conf.
Qed.

(** X7: Every record has the keys [text], [rotation], [position],
    [font_size] and [confidence] in this order, [position] has [left],
    [top], [right], [bottom], [center_x] and [center_y]; the rotation is
    the argument of the call and the font size is [bottom - top]. *)
Theorem extract_words_record_shape image rotation ws w :
  extract_words image rotation = Ok ws → w ∈ ws →
  ∃ text left top right bottom center_x center_y confidence,
    w = VDict [("text", VStr text);
               ("rotation", VInt rotation);
               ("position",
                 VDict [("left", VInt left);
                        ("top", VInt top);
                        ("right", VInt right);
                        ("bottom", VInt bottom);
                        ("center_x", VFloat center_x);
                        ("center_y", VFloat center_y)]);
               ("font_size", VInt (bottom - top));
               ("confidence", VFloat confidence)].
Proof.
  intros Hws Hw.
  destruct (extract_words_records _ _ _ _ Hws Hw)
    as (s & left & top & width & height & cx & cy & conf & _ & ->).
  exists (PyStr.strip s), left, top, (left + width), (top + height), cx, cy, conf.
  unfold word_record. do 5 f_equal. do 2 f_equal. lia.
Qed.

(** X8: The text of a record is trimmed: it is not empty, and has no
    whitespace at its start or at its end. *)
Theorem extract_words_text_trimmed image rotation ws w :
  extract_words image rotation = Ok ws → w ∈ ws →
  ∃ text,
    field "text" w = Some (VStr text) ∧ text ≠ "" ∧
    PyStr.strip text = text ∧ PyStr.lstrip text = text ∧ PyStr.rstrip text = text.
Proof.
  intros Hws Hw.
  destruct (extract_words_records _ _ _ _ Hws Hw)
    as (s & left & top & width & height & cx & cy & conf & Hb & ->).
  exists (PyStr.strip s). split_and!.
  - done.
  - rewrite strip_empty, Hb. done.
  - apply strip_idemp.
  - apply lstrip_fixed. unfold PyStr.strip. apply rstrip_head, lstrip_head.
  - unfold PyStr.strip. apply rstrip_idemp.
Qed.

Lemma words_upto_Ok_iff data rotation n :
  (∃ ws, words_upto data rotation n = Ok ws) ↔
  ∀ j, (j < n)%nat → ∃ o, word_at data rotation j = Ok o.
Proof.
  induction n as [|n IH].
  - split; [intros _ j; lia|intros _; by exists []].
  - rewrite words_upto_S. split.
    + intros (ws' & (ws & Hws & Hb)%bind_Ok) j Hj.
      rewrite extract_words_body_word_at in Hb.
      apply bind_Ok in Hb as (o & Ho & _).
      destruct (decide (j = n)) as [->|]; [eauto|].
      apply IH; [eauto|lia].
    + intros Hall. destruct (proj2 IH) as (ws & ->); [intros j Hj; apply Hall; lia|].
      destruct (Hall n) as (o & Ho); [lia|]. simpl.
      rewrite extract_words_body_word_at, Ho. simpl. eauto.
Qed.

Lemma words_upto_Raise_iff data rotation n e :
  words_upto data rotation n = Raise e ↔
  ∃ i, (i < n)%nat ∧ word_at data rotation i = Raise e ∧
    ∀ j, (j < i)%nat → ∃ o, word_at data rotation j = Ok o.
Proof.
  induction n as [|n IH].
  - split; [done|]. intros (i & ? & _). lia.
  - rewrite words_upto_S. split.
    + intros [Hr|(ws & Hws & Hb)]%bind_Raise.
      * apply IH in Hr as (i & ? & ? & ?). exists i. split_and!; [lia|done..].
      * rewrite extract_words_body_word_at in Hb.
        apply bind_Raise in Hb as [Hb|(? & _ & ?)]; [|done].
        exists n. split_and!; [lia|done|]. apply words_upto_Ok_iff. eauto.
    + intros (i & Hi & Hr & Hbefore).
      destruct (decide (i = n)) as [->|Hne].
      * destruct (proj2 (words_upto_Ok_iff data rotation n) Hbefore) as (ws & ->).
        simpl. by rewrite extract_words_body_word_at, Hr.
      * assert (words_upto data rotation n = Raise e) as ->; [|done].
        apply IH. exists i. split_and!; [lia|done..].
Qed.

(** X9: [extract_words] stops at the first token whose round raises: it
    raises [e] exactly when some token's round raises [e] and the rounds
    of all tokens before it return; nothing is returned for the tokens
    that came before. *)
Theorem extract_words_first_failure image rotation data texts e :
  image_to_data image = Ok data → data !! "text" = Some texts →
  extract_words image rotation = Raise e ↔
  ∃ i, (i < length texts)%nat ∧ word_at data rotation i = Raise e ∧
    ∀ j, (j < i)%nat → ∃ o, word_at data rotation j = Ok o.
Proof.
  intros Hd Ht.
  assert (extract_words image rotation = words_upto data rotation (length texts)) as ->.
  { unfold extract_words, words_upto, getitem. rewrite Hd. simpl. by rewrite Ht. }
  apply words_upto_Raise_iff.
Qed.

Lemma pow2_51 : 2 ^ 51 = 2251799813685248.
Proof. reflexivity. Qed.

Lemma pow2_53 : 2 ^ 53 = 9007199254740992.
Proof. reflexivity. Qed.

Lemma word_at_plain data rotation i s :
  cell data "text" i = Ok (VStr s) → PyStr.all_space s = false →
  plain_row data i → ∃ w, word_at data rotation i = Ok (Some w).
Proof.
  intros Hs Hb [Hbox (v & Hv & Hconf)].
  destruct (Hbox "left") as (left & Hl & Hlb); [repeat constructor|].
  destruct (Hbox "top") as (top & Htop & Htb); [repeat constructor|].
  destruct (Hbox "width") as (width & Hw & Hwb); [repeat constructor|].
  destruct (Hbox "height") as (height & Hh & Hhb); [repeat constructor|].
  rewrite pow2_51 in *.
  destruct (center_exact left width) as (cx & Hcx & _); [rewrite pow2_53; lia..|].
  destruct (center_exact top height) as (cy & Hcy & _); [rewrite pow2_53; lia..|].
  assert (∃ conf, cell data "conf" i ≫= py_float = Ok conf) as (conf & Hc).
  { rewrite Hv. simpl. destruct Hconf as [(f & ->)|(z & -> & Hz)]; simpl; [eauto|].
    destruct (float_of_int_low z Hz) as (x & Hx & _). eauto. }
  eexists. apply word_at_Some.
  exists s, left, top, width, height, cx, cy, conf.
  rewrite Hl, Htop, Hw, Hh. by split_and!.
Qed.

(** X10: [extract_words] returns, with one record for each non-blank token,
    when the text column holds strings and the rows of the non-blank
    tokens hold ints below [2^51] in the four box columns and a float, or
    an int below [2^53], as confidence. *)
Theorem extract_words_returns image rotation data texts :
  image_to_data image = Ok data → data !! "text" = Some texts →
  Forall (λ v, ∃ s, v = VStr s) texts →
  (∀ i v, texts !! i = Some v → nonblank v = true → plain_row data i) →
  ∃ ws, extract_words image rotation = Ok ws ∧
    length ws = length (token_indices texts).
Proof.
  intros Hd Ht Hstr Hrows.
  assert (∃ ws, extract_words image rotation = Ok ws) as (ws & Hws).
  { assert (extract_words image rotation = words_upto data rotation (length texts))
      as ->.
    { unfold extract_words, words_upto, getitem. rewrite Hd. simpl. by rewrite Ht. }
    apply words_upto_Ok_iff. intros j Hj.
    destruct (lookup_lt_is_Some_2 texts j Hj) as [v Hv].
    destruct (proj1 (Forall_forall _ _) Hstr v) as (s & ->);
      [by eapply list_elem_of_lookup_2|].
    assert (cell data "text" j = Ok (VStr s)) as Hcell
      by (rewrite (cell_text _ _ _ Ht); unfold index; by rewrite Hv).
    destruct (PyStr.all_space s) eqn:Hb.
    - exists None. apply word_at_None. eauto.
    - destruct (word_at_plain data rotation j s Hcell Hb) as (w & Hw); [|eauto].
      apply (Hrows j (VStr s) Hv). simpl. by rewrite Hb. }
  exists ws. split; [done|].
  pose proof Hws as (data' & texts' & Hd' & Ht' & Hup)%extract_words_Ok.
  rewrite Hd in Hd'. injection Hd' as <-. rewrite Ht in Ht'. injection Ht' as <-.
  symmetry. eapply Forall2_length. by apply words_upto_Forall2.
Qed.

Lemma words_upto_missing_left data rotation texts n :
  data !! "text" = Some texts → data !! "left" = None →
  Forall (λ v, ∃ s, v = VStr s) texts → (n ≤ length texts)%nat →
  words_upto data rotation n
  = if existsb nonblank (take n texts) then Raise KeyError else Ok [].
Proof.
  intros Ht Hl Hstr. induction n as [|n IH]; intros Hn; [done|].
  rewrite words_upto_S, IH by lia.
  destruct (lookup_lt_is_Some_2 texts n) as [v Hv]; [lia|].
  rewrite (take_S_r _ _ _ Hv), existsb_app. simpl. rewrite orb_false_r.
  destruct (existsb nonblank (take n texts)); [done|]. simpl.
  destruct (proj1 (Forall_forall _ _) Hstr v) as (s & ->);
    [by eapply list_elem_of_lookup_2|].
  rewrite extract_words_body_word_at.
  assert (cell data "text" n = Ok (VStr s)) as Hcell
    by (rewrite (cell_text _ _ _ Ht); unfold index; by rewrite Hv).
  simpl. destruct (PyStr.all_space s) eqn:Hb; simpl.
  - assert (word_at data rotation n = Ok None) as ->; [|done].
    apply word_at_None. eauto.
  - assert (cell data "left" n = Raise KeyError) as Hleft
      by (unfold cell, getitem; by rewrite Hl).
    unfold word_at. rewrite Hcell, Hleft. simpl. by rewrite is_empty_strip, Hb.
Qed.

(** X11: The columns are looked up by need: a table without a text column
    makes [extract_words] raise [KeyError]; with a text column of strings
    but no [left] column it raises [KeyError] exactly when some token is
    non-blank, and returns the empty list otherwise. *)
Theorem extract_words_missing_column image rotation data :
  image_to_data image = Ok data →
  (data !! "text" = None → extract_words image rotation = Raise KeyError) ∧
  (∀ texts, data !! "text" = Some texts → data !! "left" = None →
     Forall (λ v, ∃ s, v = VStr s) texts →
     extract_words image rotation
     = if existsb nonblank texts then Raise KeyError else Ok []).
Proof.
  intros Hd. split.
  - intros Ht. unfold extract_words, getitem. rewrite Hd. simpl. by rewrite Ht.
  - intros texts Ht Hl Hstr.
    assert (extract_words image rotation = words_upto data rotation (length texts))
      as ->.
    { unfold extract_words, words_upto, getitem. rewrite Hd. simpl. by rewrite Ht. }
    rewrite (words_upto_missing_left _ _ _ _ Ht Hl Hstr) by done.
    by rewrite firstn_all.
Qed.

(** ** iter_images *)

Lemma string_length_app a b :
  String.length (a +:+ b) = (String.length a + String.length b)%nat.
Proof. induction a as [|c a IH]; simpl; [done|]. by rewrite IH. Qed.

Lemma rfind_None c s : PyStr.rfind c s = None ↔ occurs c s = false.
Proof.
  induction s as [|d s IH]; simpl; [done|].
  destruct (PyStr.rfind c s) as [i|].
  - split; [done|]. intros [_ Hs]%orb_false_elim. by apply IH in Hs.
  - destruct (bool_decide (d = c)); simpl; [done|]. split; [|done].
    intros _. by apply IH.
Qed.

Lemma rfind_Some c s i :
  PyStr.rfind c s = Some i →
  ∃ a b, s = a +:+ String c b ∧ String.length a = i ∧ occurs c b = false ∧
    PyStr.slice_from i s = String c b.
Proof.
  revert i. induction s as [|d s IH]; intros i; simpl; [done|].
  destruct (PyStr.rfind c s) as [j|] eqn:Hj.
  - intros [= <-]. destruct (IH j eq_refl) as (a & b & -> & <- & Hb & Hsl).
    by exists (String d a), b.
  - destruct (decide (d = c)) as [->|Hd].
    + rewrite bool_decide_true by done. intros [= <-].
      exists "", s. split_and!; [done..| |done]. by apply rfind_None.
    + by rewrite bool_decide_false.
Qed.

Lemma rfind_app c a b :
  occurs c b = false → PyStr.rfind c (a +:+ String c b) = Some (String.length a).
Proof.
  intros Hb. induction a as [|d a IH].
  - change ("" +:+ String c b) with (String c b). simpl.
    apply rfind_None in Hb as ->. by rewrite bool_decide_true.
  - change (String d a +:+ String c b) with (String d (a +:+ String c b)).
    simpl. by rewrite IH.
Qed.

Lemma slice_from_app a b : PyStr.slice_from (String.length a) (a +:+ b) = b.
Proof. induction a as [|d a IH]; simpl; [by destruct b|done]. Qed.

(** [p.suffix] is not empty exactly when the name is a non-empty stem, a
    dot, and a non-empty extension without a dot; the suffix is then the
    dot with the extension. *)
Lemma path_suffix_spec folder name sfx :
  sfx ≠ "" →
  path_suffix (folder ++ [name]) = sfx ↔
  ∃ stem ext, name = stem +:+ String "." ext ∧ sfx = String "." ext ∧
    stem ≠ "" ∧ ext ≠ "" ∧ occurs "." ext = false.
Proof.
  intros Hsfx. unfold path_suffix, path_name. rewrite last_snoc. split.
  - destruct (decide (name = "/")) as [->|Hname].
    { rewrite bool_decide_true by done. simpl. congruence. }
    rewrite bool_decide_false by done.
    destruct (PyStr.rfind "." name) as [i|] eqn:Hi; [|congruence].
    destruct (rfind_Some _ _ _ Hi) as (stem & ext & -> & <- & Hext & Hsl).
    case_bool_decide as Hrange; [|congruence].
    rewrite Hsl. intros <-. exists stem, ext.
    rewrite string_length_app in Hrange. simpl in Hrange.
    split_and!; [done..| | |done].
    + intros ->. simpl in Hrange. lia.
    + intros ->. simpl in Hrange. lia.
  - intros (stem & ext & -> & -> & Hstem & Hext & Hdot).
    rewrite bool_decide_false.
    + rewrite rfind_app by done. rewrite bool_decide_true.
      * apply slice_from_app.
      * rewrite string_length_app. simpl.
        destruct stem; [done|]. destruct ext; [done|]. simpl. lia.
    + destruct stem as [|c [|c' stem]]; [done|by destruct ext|done].
Qed.

Lemma iter_images_Dir w folder entries ps :
  resolve (root w) folder = Some (Dir entries) →
  iter_images folder w = (Ok ps, w) →
  ps = sorted (filter supported ((λ e, folder ++ [e.1]) <$> entries)).
Proof.
  intros Hdir. unfold iter_images. unfold mbind at 1, M_bind.
  rewrite (iterdir_Dir _ _ _ Hdir). by intros [= <-].
Qed.

Lemma iter_images_elem w folder entries ps :
  resolve (root w) folder = Some (Dir entries) →
  iter_images folder w = (Ok ps, w) →
  ps ≡ₚ filter supported ((λ e, folder ++ [e.1]) <$> entries) ∧
  ∀ p, p ∈ ps ↔
    ∃ name, name ∈ entries.*1 ∧ p = folder ++ [name] ∧
      PyStr.lower (path_suffix p) ∈ SUPPORTED_EXTENSIONS.
Proof.
  intros Hdir ->%(iter_images_Dir _ _ _ _ Hdir).
  destruct (sorted_spec (filter supported ((λ e, folder ++ [e.1]) <$> entries)))
    as (_ & Hperm & _).
  split; [done|].
  intros p. rewrite Hperm, list_elem_of_filter, list_elem_of_fmap. split.
  - intros (Hp & e & -> & He). exists e.1. split_and!; [|done..].
    apply list_elem_of_fmap. eauto.
  - intros (name & (e & -> & He)%list_elem_of_fmap & -> & Hp). split; [done|eauto].
Qed.

(** X12: Which names [iter_images] lists: a path is returned exactly when its
    name is a non-empty stem, a dot, and an extension without a dot that
    is, in lower case, one of the supported ones. A name that starts with
    its only dot, or that ends in a dot, is never listed, and of several
    extensions the last one counts. *)
Theorem iter_images_names w folder entries ps p :
  resolve (root w) folder = Some (Dir entries) →
  iter_images folder w = (Ok ps, w) →
  p ∈ ps ↔
  ∃ stem ext,
    (stem +:+ String "." ext) ∈ entries.*1 ∧
    p = folder ++ [stem +:+ String "." ext] ∧
    stem ≠ "" ∧ ext ≠ "" ∧ occurs "." ext = false ∧
    PyStr.lower (String "." ext) ∈ SUPPORTED_EXTENSIONS.
Proof.
  intros Hdir Hrun.
  destruct (iter_images_elem _ _ _ _ Hdir Hrun) as (_ & Hmem).
  rewrite Hmem. split.
  - intros (name & Hname & -> & Hsup).
    assert (path_suffix (folder ++ [name]) ≠ "") as Hne.
    { intros Hempty. rewrite Hempty in Hsup. simpl in Hsup.
      apply supported_extensions in Hsup. by destruct Hsup as [|[|[|[|[|]]]]]. }
    destruct (proj1 (path_suffix_spec folder name _ Hne) eq_refl)
      as (stem & ext & -> & Hsfx & ? & ? & ?).
    exists stem, ext. rewrite Hsfx in Hsup. by split_and!.
  - intros (stem & ext & Hname & -> & Hstem & Hext & Hdot & Hsup).
    exists (stem +:+ String "." ext). split_and!; [done..|].
    rewrite (proj2 (path_suffix_spec folder _ (String "." ext) ltac:(done)));
      [done|]. by exists stem, ext.
Qed.

Lemma sorted_Permutation ps qs : ps ≡ₚ qs → sorted ps = sorted qs.
Proof.
  intros Hperm. destruct (sorted_spec ps) as (Hs & Hp & _).
  destruct (sorted_spec qs) as (_ & _ & Huniq).
  apply Huniq; [done|]. by rewrite Hp.
Qed.

(** X13: The result of [iter_images] does not depend on the order in which
    the directory reports its entries. *)
Theorem iter_images_order_independent w1 w2 folder entries1 entries2 :
  resolve (root w1) folder = Some (Dir entries1) →
  resolve (root w2) folder = Some (Dir entries2) →
  entries1.*1 ≡ₚ entries2.*1 →
  (iter_images folder w1).1 = (iter_images folder w2).1.
Proof.
  intros H1 H2 Hperm. unfold iter_images. rewrite !bind_M_unfold.
  rewrite (iterdir_Dir _ _ _ H1), (iterdir_Dir _ _ _ H2). simpl. f_equal.
  apply sorted_Permutation.
  assert (∀ es : list (string * node),
    (λ e, folder ++ [e.1]) <$> es = (λ n, folder ++ [n]) <$> es.*1) as Hmap.
  { intros es. by rewrite <-list_fmap_compose. }
  by rewrite !Hmap, Hperm.
Qed.

(** [iter_images] never changes the process state; it returns for a
    directory, raises [NotADirectoryError] for a file and
    [FileNotFoundError] for a path that does not exist. *)
Lemma iter_images_result folder w :
  (iter_images folder w).2 = w ∧
  match resolve (root w) folder with
  | Some (Dir _) => ∃ ps, (iter_images folder w).1 = Ok ps
  | Some (File _) => (iter_images folder w).1 = Raise NotADirectoryError
  | None => (iter_images folder w).1 = Raise FileNotFoundError
  end.
Proof.
  unfold iter_images, iterdir, mbind, M_bind, gets, mret, M_ret, raise. simpl.
  destruct (resolve (root w) folder) as [[|entries]|]; simpl; eauto.
Qed.

(** X14: There are at most as many results as entries, and no path is
    returned twice when the names of the entries are distinct. *)
Theorem iter_images_nodup w folder entries ps :
  resolve (root w) folder = Some (Dir entries) →
  iter_images folder w = (Ok ps, w) →
  (length ps ≤ length entries)%nat ∧ (NoDup entries.*1 → NoDup ps).
Proof.
  intros Hdir Hrun.
  destruct (iter_images_elem _ _ _ _ Hdir Hrun) as (Hperm & _). split.
  - rewrite Hperm. etrans; [apply length_filter|]. by rewrite length_fmap.
  - intros Hnd. rewrite Hperm. apply NoDup_filter.
    assert ((λ e : string * node, folder ++ [e.1]) <$> entries
            = (λ n, folder ++ [n]) <$> entries.*1) as ->
      by (by rewrite <-list_fmap_compose).
    apply NoDup_fmap_2; [|done]. intros a b Hab. by simplify_list_eq.
Qed.

(** ** main *)

Lemma lookup_store_entry_ne name x entries other :
  other ≠ name →
  lookup_entry other (store_entry name x entries) = lookup_entry other entries.
Proof.
  intros Hne. induction entries as [|[n y] entries IH]; simpl.
  - by rewrite bool_decide_false.
  - destruct (decide (n = name)) as [->|Hn].
    + rewrite bool_decide_true by done. simpl.
      by rewrite !bool_decide_false by done.
    + rewrite bool_decide_false by done. simpl. by rewrite IH.
Qed.

(** Writing a file leaves every path alone that is not the file's path
    or one of the directories above it. *)
Lemma store_frame tree p doc tree' q :
  store tree p doc = Ok tree' → ¬ q `prefix_of` p →
  resolve tree' q = resolve tree q.
Proof.
  revert tree tree' q. induction p as [|name p IH]; intros tree tree' q; simpl.
  - destruct tree; [|done]. intros [= <-] Hq.
    destruct q; [|done]. destruct Hq. apply prefix_nil.
  - destruct tree as [|entries]; [done|]. intros Hstore Hq.
    destruct q as [|x q]; [destruct Hq; apply prefix_nil|].
    destruct (lookup_entry name entries) as [y|] eqn:Hy.
    + apply bind_Ok in Hstore as (y' & Hy' & [= <-]). simpl.
      destruct (decide (x = name)) as [->|Hx].
      * rewrite lookup_store_entry, Hy. simpl. eapply IH; [done|].
        intros Hpre. apply Hq. by apply prefix_cons.
      * by rewrite lookup_store_entry_ne.
    + destruct p; [|done]. injection Hstore as <-. simpl.
      destruct (decide (x = name)) as [->|Hx].
      * rewrite lookup_store_entry, Hy. simpl.
        destruct q; [|done]. destruct Hq. done.
      * by rewrite lookup_store_entry_ne.
Qed.

Lemma for_each_main_body_frame paths acc w :
  (for_each_M main_body paths acc w).2 = w.
Proof.
  revert acc. induction paths as [|p paths IH]; intros acc; simpl; [done|].
  rewrite bind_M_unfold. pose proof (main_body_frame acc p w) as Hf.
  destruct (main_body acc p w) as [[acc'|e] w1]; simpl in Hf; subst; [apply IH|done].
Qed.

Lemma iter_images_frame folder w : (iter_images folder w).2 = w.
Proof. apply iter_images_result. Qed.

(** The steps of [main] after the engine check, from the state [w1] the
    check leaves. *)
Lemma main_steps args w w1 :
  configure_tesseract (args_tesseract_cmd args) w = (Ok (), w1) →
  main args w =
  match resolve (root w) (Path (args_img_dir args)) with
  | Some (Dir _) =>
      match (iter_images (Path (args_img_dir args)) w).1 with
      | Ok paths =>
          match (for_each_M main_body paths [] w).1 with
          | Ok images =>
              match store (root w) (Path (args_output args))
                      (VDict [("images", VList images)]) with
              | Ok tree' =>
                  (Ok (), add_stdout
                     ("Wrote OCR results to " +:+ path_str (Path (args_output args)))
                     (set_root tree' w1))
              | Raise e => (Raise e, w1)
              end
          | Raise e => (Raise e, w1)
          end
      | Raise e => (Raise e, w1)
      end
  | _ => (Raise (SystemExit ("Image directory not found: "
                             +:+ path_str (Path (args_img_dir args)))), w1)
  end.
Proof.
  intros Hconf. rewrite main_unfold, Hconf. cbv zeta.
  destruct (configure_tesseract_frame (args_tesseract_cmd args) w) as [Hroot _].
  rewrite Hconf in Hroot. simpl in Hroot.
  unfold is_dir, gets. rewrite Hroot.
  destruct (resolve (root w) (Path (args_img_dir args))) as [[|entries]|] eqn:Hdir;
    try done.
  rewrite bind_M_unfold, (iter_images_root _ w w1 Hroot).
  destruct (iter_images _ w) as [[paths|e] w0] eqn:Hit; [|done]. simpl.
  rewrite bind_M_unfold.
  assert (∀ ps acc, for_each_M main_body ps acc w1
                    = ((for_each_M main_body ps acc w).1, w1)) as Hloop.
  { induction ps as [|p ps IH]; intros acc; simpl; [done|].
    rewrite !bind_M_unfold, (main_body_root _ _ w w1 Hroot).
    pose proof (main_body_frame acc p w) as Hf.
    destruct (main_body acc p w) as [[acc'|e] w2]; simpl in *; subst; [apply IH|done]. }
  rewrite Hloop. destruct (for_each_M main_body paths [] w).1 as [images|e]; [|done].
  unfold write_text, print, mbind, M_bind, gets, lift, modify. simpl.
  rewrite Hroot. by destruct (store (root w) _ _).
Qed.


Lemma main_Ok_inv args w w' :
  main args w = (Ok (), w') →
  ∃ paths entries,
    iter_images (Path (args_img_dir args)) w = (Ok paths, w) ∧
    Forall2 (λ p entry, ∃ image rotation words,
               resolve (root w) p = Some (File (ImageFile image)) ∧
               detect_orientation image = Ok rotation ∧
               extract_words image rotation = Ok words ∧
               entry = image_entry p rotation words) paths entries ∧
    store (root w) (Path (args_output args)) (VDict [("images", VList entries)])
    = Ok (root w') ∧
    stdout w' = stdout w ++
      ["Wrote OCR results to " +:+ path_str (Path (args_output args))] ∧
    exit_status (main args w).1 = 0.
Proof.
  intros Hmain. pose proof Hmain as Hmain'.
  destruct (configure_tesseract_frame (args_tesseract_cmd args) w) as [Hroot Hout].
  destruct (configure_tesseract (args_tesseract_cmd args) w) as [[[]|e1] w1] eqn:Hconf;
    [|by rewrite main_unfold, Hconf in Hmain].
  rewrite (main_steps _ _ _ Hconf) in Hmain. simpl in Hroot, Hout.
  destruct (resolve (root w) (Path (args_img_dir args))) as [[|dir]|]; try done.
  pose proof (iter_images_frame (Path (args_img_dir args)) w) as Hitf.
  destruct (iter_images (Path (args_img_dir args)) w) as [[paths|e] w0] eqn:Hit;
    [|done]. simpl in Hitf, Hmain. subst w0.
  pose proof (for_each_main_body_frame paths [] w) as Hlf.
  destruct (for_each_M main_body paths [] w) as [[images|e] w0] eqn:Hloop; [|done].
  simpl in Hlf, Hmain. subst w0.
  apply for_each_main_body in Hloop as (_ & entries & -> & Hall).
  destruct (store (root w) _ _) as [tree'|e] eqn:Hstore; [|done].
  injection Hmain as <-. exists paths, entries. simpl. split_and!; [done| |done| |].
  - eapply Forall2_impl; [exact Hall|]. intros p entry Hb.
    apply main_body_Ok in Hb as (_ & image & rotation & words & ? & ? & ? & Hentry).
    injection Hentry as ->. by exists image, rotation, words.
  - by rewrite Hout.
  - by rewrite Hmain'.
Qed.

(** X16: When [main] returns it has found every listed path to hold an image
    on which both engine calls succeeded, the report it has written has
    one entry for each listed path, in the sorted order of the listing,
    and it has printed one line that names the output path. *)
Theorem main_report args w w' :
  main args w = (Ok (), w') →
  ∃ paths entries,
    iter_images (Path (args_img_dir args)) w = (Ok paths, w) ∧
    Forall2 (λ p entry, ∃ image rotation words,
               resolve (root w) p = Some (File (ImageFile image)) ∧
               detect_orientation image = Ok rotation ∧
               extract_words image rotation = Ok words ∧
               entry = image_entry p rotation words) paths entries ∧
    store (root w) (Path (args_output args)) (VDict [("images", VList entries)])
    = Ok (root w') ∧
    stdout w' = stdout w ++
      ["Wrote OCR results to " +:+ path_str (Path (args_output args))] ∧
    exit_status (main args w).1 = 0.
Proof. apply main_Ok_inv. Qed.

(** X17: A run of [main] that returns has changed nothing in the file system
    but the output file (and with it the directories that contain it). *)
Theorem main_touches_only_output args w w' q :
  main args w = (Ok (), w') →
  ¬ q `prefix_of` Path (args_output args) →
  resolve (root w') q = resolve (root w) q.
Proof.
  intros (paths & entries & _ & _ & Hstore & _)%main_Ok_inv Hq.
  by eapply store_frame.
Qed.

Lemma main_body_Raise images image_path w e :
  (main_body images image_path w).1 = Raise e ↔
  (main_body [] image_path w).1 = Raise e.
Proof.
  unfold main_body, Image_open, mbind, M_bind, gets, lift, mret, M_ret, raise.
  simpl. destruct (resolve (root w) image_path) as [[[image| |]|]|]; try done.
  destruct (detect_orientation image) as [rotation|]; [|done].
  by destruct (extract_words image rotation).
Qed.

Lemma main_body_acc images image_path w entry :
  main_body [] image_path w = (Ok [entry], w) →
  main_body images image_path w = (Ok (images ++ [entry]), w).
Proof.
  intros (_ & image & rotation & words & ? & ? & ? & Hentry)%main_body_Ok.
  injection Hentry as ->. apply main_body_Ok. split; [done|].
  by exists image, rotation, words.
Qed.

Lemma for_each_main_body_Raise before p after acc w e :
  Forall (λ q, ∃ entry, main_body [] q w = (Ok [entry], w)) before →
  (main_body [] p w).1 = Raise e →
  (for_each_M main_body (before ++ p :: after) acc w).1 = Raise e.
Proof.
  intros Hbefore Hp. revert acc.
  induction Hbefore as [|q before (entry & Hq) _ IH]; intros acc; simpl.
  - rewrite bind_M_unfold. apply (main_body_Raise acc) in Hp.
    by destruct (main_body acc p w) as [[|] ?]; simpl in *; simplify_eq.
  - rewrite bind_M_unfold, (main_body_acc acc q w entry Hq). apply IH.
Qed.

(** X18: One image that cannot be processed ends the whole run: when the
    body of the loop raises for a listed path and returns for the paths
    listed before it, [main] ends with that exception. *)
Theorem main_aborts_at_first_failure args w w1 paths before p after e :
  configure_tesseract (args_tesseract_cmd args) w = (Ok (), w1) →
  iter_images (Path (args_img_dir args)) w = (Ok paths, w) →
  paths = before ++ p :: after →
  Forall (λ q, ∃ entry, main_body [] q w = (Ok [entry], w)) before →
  (main_body [] p w).1 = Raise e →
  main args w = (Raise e, w1).
Proof.
  intros Hconf Hit -> Hbefore Hp. rewrite (main_steps _ _ _ Hconf).
  pose proof (iter_images_result (Path (args_img_dir args)) w) as [_ Hout].
  rewrite Hit in *. simpl in *.
  destruct (resolve (root w) (Path (args_img_dir args))) as [[|entries]|]; try done.
  by rewrite (for_each_main_body_Raise before p after [] w e).
Qed.

Lemma store_entry_twice name x y entries :
  store_entry name x (store_entry name y entries) = store_entry name x entries.
Proof.
  induction entries as [|[n z] entries IH]; simpl.
  - by rewrite bool_decide_true.
  - destruct (decide (n = name)) as [->|Hn].
    + rewrite bool_decide_true by done. simpl. by rewrite bool_decide_true.
    + rewrite bool_decide_false by done. simpl.
      by rewrite bool_decide_false, IH.
Qed.

(** The later of two writes to one path decides the tree. *)
Lemma store_twice tree p doc1 doc2 tree1 :
  store tree p doc1 = Ok tree1 → store tree1 p doc2 = store tree p doc2.
Proof.
  revert tree tree1. induction p as [|name p IH]; intros tree tree1; simpl.
  - destruct tree; [|done]. by intros [= <-].
  - destruct tree as [|entries]; [done|].
    destruct (lookup_entry name entries) as [y|] eqn:Hy.
    + intros (y1 & Hy1 & [= <-])%bind_Ok. simpl.
      rewrite lookup_store_entry, (IH _ _ Hy1).
      destruct (store y p doc2); simpl; [|done]. by rewrite store_entry_twice.
    + destruct p; [|done]. intros [= <-]. simpl.
      rewrite lookup_store_entry. simpl. by rewrite store_entry_twice.
Qed.

Lemma iter_images_resolve folder w1 w2 :
  resolve (root w1) folder = resolve (root w2) folder →
  (iter_images folder w1).1 = (iter_images folder w2).1.
Proof.
  intros Hres. unfold iter_images, iterdir, mbind, M_bind, gets, mret, M_ret, raise.
  simpl. rewrite Hres. by destruct (resolve (root w2) folder) as [[|]|].
Qed.

Lemma main_body_resolve images p w1 w2 :
  resolve (root w1) p = resolve (root w2) p →
  (main_body images p w1).1 = (main_body images p w2).1.
Proof.
  intros Hres.
  unfold main_body, Image_open, mbind, M_bind, gets, lift, mret, M_ret, raise.
  simpl. rewrite Hres.
  destruct (resolve (root w2) p) as [[[image| |]|]|]; try done.
  destruct (detect_orientation image) as [rotation|]; [|done].
  by destruct (extract_words image rotation).
Qed.

Lemma for_each_main_body_resolve paths acc w1 w2 :
  Forall (λ p, resolve (root w1) p = resolve (root w2) p) paths →
  (for_each_M main_body paths acc w1).1 = (for_each_M main_body paths acc w2).1.
Proof.
  intros Hall. revert acc. induction Hall as [|p paths Hp _ IH]; intros acc; [done|].
  simpl. rewrite !bind_M_unfold.
  pose proof (main_body_resolve acc p w1 w2 Hp) as Hb.
  pose proof (main_body_frame acc p w1) as Hf1.
  pose proof (main_body_frame acc p w2) as Hf2.
  destruct (main_body acc p w1) as [[acc1|e1] v1],
           (main_body acc p w2) as [[acc2|e2] v2]; simpl in *; simplify_eq; [apply IH|done].
Qed.

(** X19: Running [main] again after a run that returned, with the output
    outside the image directory, returns again and leaves the file system
    as the first run left it: the same report is written once more. *)
Theorem main_twice args w w' :
  main args w = (Ok (), w') →
  ¬ Path (args_img_dir args) `prefix_of` Path (args_output args) →
  ∃ w'',
    main args w' = (Ok (), w'') ∧ root w'' = root w' ∧
    stdout w'' = stdout w' ++
      ["Wrote OCR results to " +:+ path_str (Path (args_output args))].
Proof.
  intros Hmain Hout.
  destruct (main_Ok_inv _ _ _ Hmain) as (paths & entries & Hit & Hall & Hstore & _).
  destruct (configure_tesseract (args_tesseract_cmd args) w) as [[[]|e1] w1] eqn:Hconf;
    [|by rewrite main_unfold, Hconf in Hmain].
  (* the state after the first run *)
  assert (w' = add_stdout
            ("Wrote OCR results to " +:+ path_str (Path (args_output args)))
            (set_root (root w') w1)) as Hw'.
  { pose proof Hmain as Hm. rewrite (main_steps _ _ _ Hconf) in Hm.
    destruct (resolve (root w) (Path (args_img_dir args))) as [[|d]|]; try done.
    rewrite Hit in Hm. simpl in Hm.
    destruct ((for_each_M main_body paths [] w).1) as [images|]; [|done].
    destruct (store (root w) (Path (args_output args))
                (VDict [("images", VList images)])) as [tree1|]; [|done].
    by injection Hm as <-. }
  (* the engine check passes again *)
  pose proof (configure_tesseract_state (args_tesseract_cmd args) w)
    as (Hc & He & _ & _ & Hwh & Hv).
  pose proof (configure_tesseract_result (args_tesseract_cmd args) w) as Hres.
  rewrite Hconf in Hc, He, Hwh, Hv, Hres. simpl in *.
  assert (resolved_command (args_tesseract_cmd args) w'
          = resolved_command (args_tesseract_cmd args) w) as Hsame.
  { apply resolved_command_stable; rewrite Hw'; simpl; done. }
  pose proof (configure_tesseract_result (args_tesseract_cmd args) w') as Hres'.
  simpl in Hres'. rewrite Hsame in Hres'.
  assert (which w' = which w) as Hwh' by (rewrite Hw'; simpl; done).
  assert (tesseract_version w' = tesseract_version w) as Hv'
    by (rewrite Hw'; simpl; done).
  rewrite Hwh', Hv', <-Hres in Hres'.
  destruct (configure_tesseract (args_tesseract_cmd args) w') as [r2 w2] eqn:Hconf'.
  simpl in Hres'. subst r2.
  pose proof (configure_tesseract_state (args_tesseract_cmd args) w')
    as (_ & _ & Hroot2 & Hout2 & _). rewrite Hconf' in Hroot2, Hout2. simpl in *.
  (* the listing and the images are as before *)
  assert (resolve (root w') (Path (args_img_dir args))
          = resolve (root w) (Path (args_img_dir args))) as Hdir
    by (by eapply store_frame).
  pose proof (iter_images_result (Path (args_img_dir args)) w) as [_ Hkind].
  rewrite Hit in Hkind. simpl in Hkind.
  destruct (resolve (root w) (Path (args_img_dir args))) as [[|dir]|] eqn:Hd;
    try done.
  assert (Forall (λ p, resolve (root w') p = resolve (root w) p) paths) as Hsamep.
  { destruct (iter_images_elem _ _ _ _ Hd Hit) as (_ & Hmem).
    apply Forall_forall. intros p (name & _ & -> & _)%Hmem.
    eapply store_frame; [done|]. intros Hpre. apply Hout.
    etrans; [|exact Hpre]. by apply prefix_app_r. }
  exists (add_stdout
            ("Wrote OCR results to " +:+ path_str (Path (args_output args)))
            (set_root (root w') w2)).
  split_and!; [|done|simpl; by rewrite Hout2].
  rewrite (main_steps _ _ _ Hconf'), Hdir.
  rewrite (iter_images_resolve _ w' w) by by rewrite Hdir, Hd.
  rewrite Hit. simpl.
  rewrite (for_each_main_body_resolve paths [] w' w Hsamep).
  pose proof (for_each_main_body_frame paths [] w) as Hlf.
  assert ((for_each_M main_body paths [] w).1 = Ok entries) as ->.
  { assert (∀ acc, for_each_M main_body paths acc w = (Ok (acc ++ entries), w))
      as Hloop.
    { clear -Hall. induction Hall as [|p entry paths entries Hp _ IH]; intros acc.
      - simpl. by rewrite app_nil_r.
      - simpl. rewrite bind_M_unfold.
        destruct Hp as (image & rotation & words & ? & ? & ? & ->).
        assert (main_body acc p w
                = (Ok (acc ++ [image_entry p rotation words]), w)) as ->.
        { apply main_body_Ok. split; [done|]. by exists image, rotation, words. }
        rewrite IH. by rewrite <-app_assoc. }
    by rewrite Hloop. }
  rewrite (store_twice _ _ _ _ _ Hstore), Hstore. done.
Qed.

(** ** Instances of the further properties *)

Lemma configure_tesseract_succeeds_witness :
  which no_engine_world (resolved_command None no_engine_world) = false ∧
  (configure_tesseract None no_engine_world).1
  = Raise (SystemExit
      ("Tesseract executable not found. Install tesseract or provide the path via "
       +:+ "--tesseract-cmd or the TESSERACT_CMD environment variable.")).
Proof.
  split; [reflexivity|].
  apply (proj1 (proj2 (configure_tesseract_succeeds None no_engine_world))).
  reflexivity.
Defined.

Lemma extract_words_order_witness :
  image_to_data hello_image = Ok hello_table ∧
  hello_table !! "text" = Some hello_texts ∧
  extract_words hello_image 0 = Ok [hello_record] ∧
  token_indices hello_texts = [0%nat] ∧
  Forall2 (λ i w, word_at hello_table 0 i = Ok (Some w))
    (token_indices hello_texts) [hello_record].
Proof.
  split_and!; [reflexivity|reflexivity|vm_compute; reflexivity|reflexivity|].
  apply (extract_words_order hello_image 0 hello_table hello_texts [hello_record]);
    [reflexivity|reflexivity|vm_compute; reflexivity].
Defined.

Lemma extract_words_record_shape_witness :
  extract_words hello_image 0 = Ok [hello_record] ∧
  ∃ text left top right bottom center_x center_y confidence,
    hello_record
    = VDict [("text", VStr text);
             ("rotation", VInt 0);
             ("position",
               VDict [("left", VInt left);
                      ("top", VInt top);
                      ("right", VInt right);
                      ("bottom", VInt bottom);
                      ("center_x", VFloat center_x);
                      ("center_y", VFloat center_y)]);
             ("font_size", VInt (bottom - top));
             ("confidence", VFloat confidence)].
Proof.
  split; [vm_compute; reflexivity|].
  apply (extract_words_record_shape hello_image 0 [hello_record] hello_record);
    [vm_compute; reflexivity|by left].
Defined.

Lemma extract_words_text_trimmed_witness :
  extract_words hello_image 0 = Ok [hello_record] ∧
  ∃ text,
    field "text" hello_record = Some (VStr text) ∧ text ≠ "" ∧
    PyStr.strip text = text ∧ PyStr.lstrip text = text ∧ PyStr.rstrip text = text.
Proof.
  split; [vm_compute; reflexivity|].
  apply (extract_words_text_trimmed hello_image 0 [hello_record] hello_record);
    [vm_compute; reflexivity|by left].
Defined.

Lemma extract_words_first_failure_witness :
  image_to_data short_image
  = Ok (make_table [VStr "Hello"] [] [VInt 10] [VInt 50] [VInt 20] [VInt 95]) ∧
  extract_words short_image 0 = Raise IndexError.
Proof.
  split; [reflexivity|].
  apply (extract_words_first_failure short_image 0
           (make_table [VStr "Hello"] [] [VInt 10] [VInt 50] [VInt 20] [VInt 95])
           [VStr "Hello"] IndexError eq_refl eq_refl).
  exists 0%nat. split_and!; [simpl; lia|reflexivity|intros j Hj; lia].
Defined.

Lemma hello_plain_row : plain_row hello_table 0.
Proof.
  split.
  - intros c Hc.
    repeat (apply elem_of_cons in Hc as [->|Hc];
            [eexists; split; [reflexivity|vm_compute; reflexivity]|]).
    by apply elem_of_nil in Hc.
  - eexists. split; [reflexivity|]. left. eauto.
Defined.

Lemma extract_words_returns_witness :
  image_to_data hello_image = Ok hello_table ∧
  hello_table !! "text" = Some hello_texts ∧
  ∃ ws, extract_words hello_image 0 = Ok ws ∧
    length ws = length (token_indices hello_texts).
Proof.
  split_and!; [reflexivity|reflexivity|].
  apply (extract_words_returns hello_image 0 hello_table hello_texts);
    [reflexivity|reflexivity|by repeat constructor; eexists|].
  intros [|[|i]] v Hv Hnb; simpl in Hv; simplify_eq; try done.
  apply hello_plain_row.
Defined.

Lemma extract_words_missing_column_witness :
  image_to_data no_left_image = Ok (delete "left" hello_table) ∧
  extract_words no_left_image 0 = Raise KeyError.
Proof.
  split; [reflexivity|].
  apply (proj2 (extract_words_missing_column no_left_image 0
                  (delete "left" hello_table) eq_refl) hello_texts);
    [reflexivity|reflexivity|by repeat constructor; eexists].
Defined.

Lemma iter_images_names_witness :
  resolve (root listing_world) ["img"]
  = Some (Dir [("d.tiff", File OtherFile); ("c.txt", File OtherFile);
               ("b.jpg", File OtherFile); ("a.PNG", File OtherFile)]) ∧
  iter_images ["img"] listing_world
  = (Ok [["img"; "a.PNG"]; ["img"; "b.jpg"]; ["img"; "d.tiff"]], listing_world) ∧
  ∃ stem ext, ["img"; "a.PNG"] = ["img"] ++ [stem +:+ String "." ext] ∧
    PyStr.lower (String "." ext) ∈ SUPPORTED_EXTENSIONS.
Proof.
  split_and!; [reflexivity|vm_compute; reflexivity|].
  destruct (proj1 (iter_images_names listing_world ["img"] _ _ ["img"; "a.PNG"]
                     eq_refl ltac:(vm_compute; reflexivity)))
    as (stem & ext & _ & ? & _ & _ & _ & ?); [by left|].
  by exists stem, ext.
Defined.

Lemma iter_images_order_independent_witness :
  (iter_images ["img"] listing_world).1 = (iter_images ["img"] listing_world_2).1.
Proof.
  apply (iter_images_order_independent listing_world listing_world_2 ["img"]
           [("d.tiff", File OtherFile); ("c.txt", File OtherFile);
            ("b.jpg", File OtherFile); ("a.PNG", File OtherFile)]
           [("a.PNG", File OtherFile); ("b.jpg", File OtherFile);
            ("c.txt", File OtherFile); ("d.tiff", File OtherFile)]);
    [reflexivity|reflexivity|].
  simpl. symmetry. apply (Permutation_rev ["a.PNG"; "b.jpg"; "c.txt"; "d.tiff"]).
Defined.

Lemma iter_images_nodup_witness :
  iter_images ["img"] listing_world
  = (Ok [["img"; "a.PNG"]; ["img"; "b.jpg"]; ["img"; "d.tiff"]], listing_world) ∧
  (3 ≤ 4)%nat.
Proof.
  split; [vm_compute; reflexivity|].
  apply (iter_images_nodup listing_world ["img"]
           [("d.tiff", File OtherFile); ("c.txt", File OtherFile);
            ("b.jpg", File OtherFile); ("a.PNG", File OtherFile)]
           [["img"; "a.PNG"]; ["img"; "b.jpg"]; ["img"; "d.tiff"]]);
    [reflexivity|vm_compute; reflexivity].
Defined.


Lemma main_hello_run :
  main default_args hello_world
  = (Ok (),
     add_stdout "Wrote OCR results to ocr_output.json"
       (set_root
          (Dir [("img", Dir [("hello.png", File (ImageFile hello_image))]);
                ("ocr_output.json",
                 File (TextFile
                   (VDict [("images",
                            VList [image_entry ["img"; "hello.png"] 0 [hello_record]])])))])
          hello_world)).
Proof. vm_compute. reflexivity. Defined.

Lemma main_report_witness :
  ∃ (paths : list path) (entries : list pyval),
    iter_images (Path (args_img_dir default_args)) hello_world
    = (Ok paths, hello_world) ∧
    length paths = length entries.
Proof.
  destruct (main_report default_args hello_world _ main_hello_run)
    as (paths & entries & ? & Hall & _).
  exists paths, entries. split; [done|]. by eapply Forall2_length.
Defined.

Lemma main_touches_only_output_witness :
  ¬ ["img"; "hello.png"] `prefix_of` Path (args_output default_args) ∧
  resolve (root (main default_args hello_world).2) ["img"; "hello.png"]
  = resolve (root hello_world) ["img"; "hello.png"].
Proof.
  assert (¬ ["img"; "hello.png"] `prefix_of` Path (args_output default_args)) as Hq.
  { intros [k Hk]. vm_compute in Hk. discriminate Hk. }
  split; [exact Hq|].
  rewrite main_hello_run.
  apply (main_touches_only_output default_args hello_world _ _ main_hello_run Hq).
Defined.

Lemma main_aborts_at_first_failure_witness :
  iter_images (Path (args_img_dir default_args)) subdir_world
  = (Ok [["img"; "scans.png"]], subdir_world) ∧
  (main_body [] ["img"; "scans.png"] subdir_world).1 = Raise IsADirectoryError ∧
  main default_args subdir_world = (Raise IsADirectoryError, subdir_world).
Proof.
  split_and!; [vm_compute; reflexivity|reflexivity|].
  apply (main_aborts_at_first_failure default_args subdir_world subdir_world
           [["img"; "scans.png"]] [] ["img"; "scans.png"] [] IsADirectoryError);
    [reflexivity|vm_compute; reflexivity|reflexivity|constructor|reflexivity].
Defined.

Lemma main_twice_witness :
  ¬ Path (args_img_dir default_args) `prefix_of` Path (args_output default_args) ∧
  ∃ w'',
    main default_args (main default_args hello_world).2 = (Ok (), w'') ∧
    root w'' = root (main default_args hello_world).2.
Proof.
  assert (¬ Path (args_img_dir default_args)
            `prefix_of` Path (args_output default_args)) as Hq.
  { intros [k Hk]. vm_compute in Hk. discriminate Hk. }
  split; [exact Hq|].
  destruct (main_twice default_args hello_world _ main_hello_run Hq)
    as (w'' & Hrun & Hroot & _).
  exists w''. rewrite main_hello_run. by split.
Defined.
